(** * DCTect: the Discord status manager of [discord_status.py]

    A shallow embedding of [DiscordStatusManager] and [main].

    - Python values (what [json.load] produces and what the keyword
      arguments of [update_status] carry) are the inductive [pyval];
      a [dict] is a [gmap string pyval].
    - The manager object is a record; its methods run in a state and
      exception monad over the pair of the object ([self]) and the
      outside world.
    - Every call that leaves the program (the file system, the
      [pypresence] handle, the clock, [time.sleep]) asks an oracle of
      the environment what happens: the call returns a value or throws
      a Python exception.  The oracle is indexed by the number of
      external calls made so far, so it may answer differently at each
      call.  Each external call and each [print] is appended to a trace.
    - The [while True] loop of [run_continuous] takes a fuel argument
      bounding the number of times its head is evaluated; a run that
      exhausts it is [OutOfFuel], which no [except] or [finally] sees.
    - Clock readings ([time.time()]) are rationals; [print] never
      throws; an asynchronous exception such as [KeyboardInterrupt]
      is delivered at an external call, as the answer of its oracle. *)

From Stdlib Require Import ZArith QArith String List Lia.
From stdpp Require Import gmap strings.

Set Warnings "-register-all".

Local Open Scope string_scope.
Local Open Scope list_scope.

(** ** Python values *)

Inductive pyval :=
| PNone
| PBool (b : bool)
| PInt (z : Z)
| PFloat (q : Q)
| PStr (s : string)
| PList (l : list pyval)
| PTuple (l : list pyval)
| PDict (d : gmap string pyval).

(** [bool(v)]: the truth value Python gives to [v] in [if v], [not v],
    [a or b] and [a and b]. *)
Definition truthy (v : pyval) : bool :=
  match v with
  | PNone => false
  | PBool b => b
  | PInt z => negb (z =? 0)%Z
  | PFloat q => negb (Qeq_bool q 0)
  | PStr s => negb (String.eqb s "")
  | PList l | PTuple l => match l with [] => false | _ :: _ => true end
  | PDict d => negb (size d =? 0)%nat
  end.

(** [a or b] on values already evaluated. *)
Definition py_or (a b : pyval) : pyval := if truthy a then a else b.

Definition is_dict (v : pyval) : bool :=
  match v with PDict _ => true | _ => false end.

(** ** Exceptions *)

(** [Exception cls] stands for an instance of any class below
    [Exception]; [KeyboardInterrupt] and [SystemExit] derive from
    [BaseException] only, so [except Exception] lets them through. *)
Inductive exn :=
| Exception (cls : string)
| KeyboardInterrupt
| SystemExit (code : Z).

Definition is_Exception (e : exn) : bool :=
  match e with Exception _ => true | _ => false end.

(** ** The monad *)

Inductive result (A : Type) :=
| Ret (a : A)
| Raise (e : exn)
| OutOfFuel.
Arguments Ret {A} a.
Arguments Raise {A} e.
Arguments OutOfFuel {A}.

Definition M (S A : Type) : Type := S -> result A * S.

Definition ret {S A} (a : A) : M S A := fun s => (Ret a, s).

Definition bind {S A B} (m : M S A) (k : A -> M S B) : M S B :=
  fun s =>
    match m s with
    | (Ret a, s') => k a s'
    | (Raise e, s') => (Raise e, s')
    | (OutOfFuel, s') => (OutOfFuel, s')
    end.

Definition raise {S A} (e : exn) : M S A := fun s => (Raise e, s).

Definition out_of_fuel {S A} : M S A := fun s => (OutOfFuel, s).

Definition get {S} : M S S := fun s => (Ret s, s).

Definition modify {S} (f : S -> S) : M S unit := fun s => (Ret tt, f s).

Declare Scope py_scope.
Delimit Scope py_scope with py.
Notation "x <- c ;; k" := (bind c (fun x => k))
  (at level 100, c at next level, k at level 200, right associativity) : py_scope.
Notation "c ;; k" := (bind c (fun _ => k))
  (at level 100, k at level 200, right associativity) : py_scope.
Local Open Scope py_scope.

(** [try: body  except <the classes handlers accepts>: ...].  A handler
    table maps the exception to the clause that catches it, if any. *)
Definition try_except {S A} (body : M S A) (handlers : exn -> option (M S A)) : M S A :=
  fun s =>
    match body s with
    | (Raise e, s') =>
        match handlers e with
        | Some h => h s'
        | None => (Raise e, s')
        end
    | other => other
    end.

(** [except Exception as e: h e]. *)
Definition except_Exception {S A} (h : exn -> M S A) : exn -> option (M S A) :=
  fun e => if is_Exception e then Some (h e) else None.

(** [try: body  finally: final].  The final block runs however the body
    ended; what it throws replaces the body's outcome. *)
Definition try_finally {S A} (body : M S A) (final : M S unit) : M S A :=
  fun s =>
    match body s with
    | (OutOfFuel, s') => (OutOfFuel, s')
    | (r, s') =>
        match final s' with
        | (Ret _, s'') => (r, s'')
        | (Raise e, s'') => (Raise e, s'')
        | (OutOfFuel, s'') => (OutOfFuel, s'')
        end
    end.

(** ** The outside world *)

(** A [pypresence.Presence] object: the client id it was built with and
    the index of the external call that built it. *)
Record Presence := { presence_client_id : pyval; presence_serial : nat }.

Inductive message :=
| MsgErrorLoadingConfig (e : exn)
| MsgConfigSaved (path : string)
| MsgErrorSavingConfig (e : exn)
| MsgConnected
| MsgConnectFailed (e : exn)
| MsgDisconnected
| MsgErrorDisconnecting (e : exn)
| MsgNotConnected
| MsgStatusUpdated (shown : pyval)
| MsgErrorUpdating (e : exn)
| MsgBannerRule
| MsgBannerRunning
| MsgBannerInterval (update_interval : pyval)
| MsgBannerDuration (duration : option Z)
| MsgBannerCtrlC
| MsgKeyboardInterrupt
| MsgErrorDuringExecution (e : exn)
| MsgNoClientId
| MsgClientIdHelp (line : nat).

Inductive event :=
| EvPrint (m : message)
| EvExists (path : string)
| EvJsonLoad (path : string)
| EvJsonDump (path : string) (data : pyval)
| EvPresenceNew (client_id : pyval)
| EvRpcConnect (h : Presence)
| EvRpcClose (h : Presence)
| EvRpcUpdate (h : Presence) (kwargs : gmap string pyval)
| EvTime
| EvSleep (secs : Q).

Record World := { steps : nat; trace : list event }.

Inductive outcome (A : Type) :=
| Returns (a : A)
| Throws (e : exn).
Arguments Returns {A} a.
Arguments Throws {A} e.

(** What the environment answers to the external call number [n]. *)
Record Env := {
  environ : string -> option string;
  fs_exists : nat -> string -> bool;
  fs_json_load : nat -> string -> outcome pyval;
  fs_json_dump : nat -> string -> pyval -> outcome unit;
  discord_new : nat -> pyval -> outcome unit;
  discord_connect : nat -> outcome unit;
  discord_close : nat -> outcome unit;
  discord_update : nat -> gmap string pyval -> outcome unit;
  clock : nat -> Q;
  sleep_outcome : nat -> Q -> outcome unit
}.

Definition log (ev : event) (w : World) : World :=
  {| steps := steps w; trace := trace w ++ [ev] |}.

(** An external call: it is logged, it consumes one oracle index, and it
    returns or throws as the oracle says. *)
Definition external {A} (ev : event) (answer : nat -> outcome A) : M World A :=
  fun w =>
    let w' := {| steps := S (steps w); trace := trace w ++ [ev] |} in
    match answer (steps w) with
    | Returns a => (Ret a, w')
    | Throws e => (Raise e, w')
    end.

Definition print (m : message) : M World unit :=
  fun w => (Ret tt, log (EvPrint m) w).

(** ** The manager object *)

Record DiscordStatusManager := {
  client_id : pyval;
  config_file : string;
  rpc : option Presence;
  is_connected : bool;
  config : pyval
}.

Record State := { self : DiscordStatusManager; world : World }.

Definition lift {A} (m : M World A) : M State A :=
  fun st =>
    let (r, w) := m (world st) in
    (r, {| self := self st; world := w |}).

Definition set_rpc (h : option Presence) : M State unit :=
  modify (fun st =>
    {| self := {| client_id := client_id (self st);
                  config_file := config_file (self st);
                  rpc := h;
                  is_connected := is_connected (self st);
                  config := config (self st) |};
       world := world st |}).

Definition set_is_connected (b : bool) : M State unit :=
  modify (fun st =>
    {| self := {| client_id := client_id (self st);
                  config_file := config_file (self st);
                  rpc := rpc (self st);
                  is_connected := b;
                  config := config (self st) |};
       world := world st |}).

Definition set_config (c : pyval) (m : DiscordStatusManager) : DiscordStatusManager :=
  {| client_id := client_id m;
     config_file := config_file m;
     rpc := rpc m;
     is_connected := is_connected m;
     config := c |}.

(** Runs a method on a given object from code that only holds the
    world, and hands the object back. *)
Definition with_self {A} (obj : DiscordStatusManager) (m : M State A)
  : M World (A * DiscordStatusManager) :=
  fun w =>
    match m {| self := obj; world := w |} with
    | (Ret a, st) => (Ret (a, self st), world st)
    | (Raise e, st) => (Raise e, world st)
    | (OutOfFuel, st) => (OutOfFuel, world st)
    end.

(** [obj.get(key, dflt)]: only a [dict] has the method. *)
Definition py_get {S} (obj : pyval) (key : string) (dflt : pyval) : M S pyval :=
  match obj with
  | PDict d => ret (default dflt (d !! key))
  | _ => raise (Exception "AttributeError")
  end.

(** The keyword arguments of [update_status]; an argument left out has
    its default [None]. *)
Record kwargs := {
  state : pyval;
  details : pyval;
  large_image : pyval;
  large_text : pyval;
  small_image : pyval;
  small_text : pyval;
  party_id : pyval;
  party_size : pyval;
  buttons : pyval
}.

Definition no_kwargs : kwargs :=
  {| state := PNone; details := PNone; large_image := PNone;
     large_text := PNone; small_image := PNone; small_text := PNone;
     party_id := PNone; party_size := PNone; buttons := PNone |}.

(** The dict returned by [load_config] when there is no usable file. *)
Definition default_config : gmap string pyval :=
  <["state" := PStr "Playing a game"]>
  (<["details" := PStr "Enjoying Discord"]>
  (<["large_image" := PStr "discord"]>
  (<["large_text" := PStr "Discord Rich Presence"]>
  (<["small_image" := PNone]>
  (<["small_text" := PNone]>
  (<["update_interval" := PInt 15]>
  (<["auto_start" := PBool true]> ∅))))))).

(** The number of seconds [time.sleep] accepts, if it accepts the value. *)
Definition sleep_seconds (v : pyval) : option Q :=
  match v with
  | PInt z => Some (inject_Z z)
  | PFloat q => Some q
  | PBool b => Some (if b then 1 else 0)%Q
  | _ => None
  end.

Section Program.

Variable env : Env.

(** *** Library calls *)

Definition os_path_exists (path : string) : M World bool :=
  external (EvExists path) (fun n => Returns (fs_exists env n path)).

(** [with open(path, "r") as f: json.load(f)] *)
Definition json_load_file (path : string) : M World pyval :=
  external (EvJsonLoad path) (fun n => fs_json_load env n path).

(** [with open(path, "w") as f: json.dump(data, f, indent=4)] *)
Definition json_dump_file (path : string) (data : pyval) : M World unit :=
  external (EvJsonDump path data) (fun n => fs_json_dump env n path data).

Definition Presence_new (cid : pyval) : M World Presence :=
  w <- get;;
  external (EvPresenceNew cid) (fun n => discord_new env n cid);;
  ret {| presence_client_id := cid; presence_serial := steps w |}.

Definition rpc_connect (h : Presence) : M World unit :=
  external (EvRpcConnect h) (discord_connect env).

Definition rpc_close (h : Presence) : M World unit :=
  external (EvRpcClose h) (discord_close env).

Definition rpc_update (h : Presence) (data : gmap string pyval) : M World unit :=
  external (EvRpcUpdate h data) (fun n => discord_update env n data).

Definition time_time : M World Q :=
  external EvTime (fun n => Returns (clock env n)).

Definition time_sleep (secs : pyval) : M World unit :=
  match sleep_seconds secs with
  | None => raise (Exception "TypeError")
  | Some q =>
      if Qle_bool 0 q
      then external (EvSleep q) (fun n => sleep_outcome env n q)
      else raise (Exception "ValueError")
  end.

(** *** Methods of [DiscordStatusManager] *)

(** [self.config.get(key, dflt)] *)
Definition config_get (key : string) (dflt : pyval) : M State pyval :=
  st <- get;;
  py_get (config (self st)) key dflt.

(** [v or self.config.get(key)]: the config is consulted only when [v]
    is falsy. *)
Definition or_config (v : pyval) (key : string) : M State pyval :=
  if truthy v then ret v else config_get key PNone.

Definition load_config : M State pyval :=
  st <- get;;
  found <- lift (os_path_exists (config_file (self st)));;
  loaded <- (if found
             then try_except
                    (v <- lift (json_load_file (config_file (self st)));;
                     ret (Some v))
                    (except_Exception (fun e =>
                       lift (print (MsgErrorLoadingConfig e));;
                       ret None))
             else ret None);;
  match loaded with
  | Some v => ret v
  | None => ret (PDict default_config)
  end.

Definition save_config : M State unit :=
  st <- get;;
  try_except
    (lift (json_dump_file (config_file (self st)) (config (self st)));;
     lift (print (MsgConfigSaved (config_file (self st)))))
    (except_Exception (fun e => lift (print (MsgErrorSavingConfig e)))).

Definition connect : M State bool :=
  try_except
    (st <- get;;
     h <- lift (Presence_new (client_id (self st)));;
     set_rpc (Some h);;
     lift (rpc_connect h);;
     set_is_connected true;;
     lift (print MsgConnected);;
     ret true)
    (except_Exception (fun e =>
       lift (print (MsgConnectFailed e));;
       set_is_connected false;;
       ret false)).

Definition disconnect : M State unit :=
  st <- get;;
  match rpc (self st), is_connected (self st) with
  | Some h, true =>
      try_except
        (lift (rpc_close h);;
         set_is_connected false;;
         lift (print MsgDisconnected))
        (except_Exception (fun e => lift (print (MsgErrorDisconnecting e))))
  | _, _ => ret tt
  end.

(** The body of the [try] of [update_status], up to the call of
    [rpc.update]: the dict of keyword arguments it builds. *)
Definition build_update_data (a : kwargs) : M State (gmap string pyval) :=
  v_state <- or_config (state a) "state";;
  v_details <- or_config (details a) "details";;
  v_large_image <- or_config (large_image a) "large_image";;
  v_large_text <- or_config (large_text a) "large_text";;
  now <- lift time_time;;
  let update_data : gmap string pyval :=
    <["start" := PFloat now]>
    (<["large_text" := v_large_text]>
    (<["large_image" := v_large_image]>
    (<["details" := v_details]>
    (<["state" := v_state]> ∅)))) in
  c_small_image <- or_config (small_image a) "small_image";;
  update_data <- (if truthy c_small_image
                  then v <- or_config (small_image a) "small_image";;
                       ret (<["small_image" := v]> update_data)
                  else ret update_data);;
  c_small_text <- or_config (small_text a) "small_text";;
  update_data <- (if truthy c_small_text
                  then v <- or_config (small_text a) "small_text";;
                       ret (<["small_text" := v]> update_data)
                  else ret update_data);;
  let update_data :=
    if truthy (party_id a)
    then <["party_id" := party_id a]> update_data else update_data in
  let update_data :=
    if truthy (party_size a)
    then <["party_size" := party_size a]> update_data else update_data in
  let update_data :=
    if truthy (buttons a)
    then <["buttons" := buttons a]> update_data else update_data in
  ret update_data.

Definition update_status (a : kwargs) : M State bool :=
  st <- get;;
  match is_connected (self st), rpc (self st) with
  | true, Some h =>
      try_except
        (update_data <- build_update_data a;;
         lift (rpc_update h update_data);;
         shown <- or_config (state a) "state";;
         lift (print (MsgStatusUpdated shown));;
         ret true)
        (except_Exception (fun e =>
           lift (print (MsgErrorUpdating e));;
           ret false))
  | _, _ =>
      lift (print MsgNotConnected);;
      ret false
  end.

(** [duration and (time.time() - start_time) > duration]: the clock is
    read only when [duration] is truthy, that is an integer other than
    zero. *)
Definition duration_elapsed (duration : option Z) (start_time : Q) : M World bool :=
  match duration with
  | None => ret false
  | Some d =>
      if (d =? 0)%Z then ret false
      else now <- time_time;;
           ret (negb (Qle_bool (now - start_time) (inject_Z d)))
  end.

(** The [while True] loop; [fuel] bounds the evaluations of its head. *)
Fixpoint scheduler_loop (fuel : nat) (duration : option Z) (start_time : Q)
    (update_interval : pyval) : M State unit :=
  match fuel with
  | O => out_of_fuel
  | S fuel' =>
      stop <- lift (duration_elapsed duration start_time);;
      if stop : bool then ret tt
      else
        lift (time_sleep update_interval);;
        update_status no_kwargs;;
        scheduler_loop fuel' duration start_time update_interval
  end.

Definition banner (update_interval : pyval) (duration : option Z) : M World unit :=
  print MsgBannerRule;;
  print MsgBannerRunning;;
  print (MsgBannerInterval update_interval);;
  print (MsgBannerDuration duration);;
  print MsgBannerCtrlC;;
  print MsgBannerRule.

(** The body of the [try] of [run_continuous]. *)
Definition run_body (fuel : nat) (duration : option Z) (start_time : Q)
    (update_interval : pyval) : M State unit :=
  lift (banner update_interval duration);;
  update_status no_kwargs;;
  scheduler_loop fuel duration start_time update_interval.

Definition run_handlers (e : exn) : option (M State unit) :=
  match e with
  | KeyboardInterrupt => Some (lift (print MsgKeyboardInterrupt))
  | Exception _ => Some (lift (print (MsgErrorDuringExecution e)))
  | SystemExit _ => None
  end.

Definition run_continuous (fuel : nat) (duration : option Z) : M State unit :=
  connected <- connect;;
  if negb connected then ret tt
  else
    start_time <- lift time_time;;
    update_interval <- config_get "update_interval" (PInt 15);;
    try_finally
      (try_except (run_body fuel duration start_time update_interval) run_handlers)
      disconnect.

(** [DiscordStatusManager(client_id, config_file)] *)
Definition __init__ (cid : pyval) (cfile : string) : M World DiscordStatusManager :=
  r <- with_self {| client_id := cid; config_file := cfile; rpc := None;
                    is_connected := false; config := PNone |} load_config;;
  ret (set_config (fst r) (snd r)).

(** *** The entry point *)

(** The first part of [main]: the client id from the environment, else
    from the [client_id] key of [discord_config.json]. *)
Definition resolve_client_id : M World pyval :=
  let CLIENT_ID :=
    match environ env "DISCORD_CLIENT_ID" with
    | Some s => PStr s
    | None => PNone
    end in
  if negb (truthy CLIENT_ID) then
    found <- os_path_exists "discord_config.json";;
    if found : bool then
      try_except
        (cfg <- json_load_file "discord_config.json";;
         py_get cfg "client_id" PNone)
        (except_Exception (fun _ => ret PNone))
    else ret CLIENT_ID
  else ret CLIENT_ID.

Definition main_kwargs : kwargs :=
  {| state := PStr "🎮 Playing Elden Ring";
     details := PStr "Exploring the Lands Between";
     large_image := PStr "discord";
     large_text := PStr "Discord Rich Presence";
     small_image := PNone; small_text := PNone;
     party_id := PNone; party_size := PNone; buttons := PNone |}.

Definition main (fuel : nat) : M World unit :=
  CLIENT_ID <- resolve_client_id;;
  if negb (truthy CLIENT_ID) then
    print MsgNoClientId;;
    print (MsgClientIdHelp 1);;
    print (MsgClientIdHelp 2);;
    print (MsgClientIdHelp 3);;
    print (MsgClientIdHelp 4);;
    print (MsgClientIdHelp 5);;
    raise (SystemExit 1)
  else
    manager <- __init__ CLIENT_ID "discord_config.json";;
    with_self manager
      (st <- get;;
       found <- lift (os_path_exists (config_file (self st)));;
       (if negb found then save_config else ret tt);;
       connected <- connect;;
       if connected : bool then
         update_status main_kwargs;;
         run_continuous fuel None
       else ret tt);;
    ret tt.

End Program.

(** The status with which the interpreter exits once [main] has ended:
    0 when it returns, the code of an uncaught [SystemExit], 1 after the
    traceback of an uncaught [Exception], 130 (128 + SIGINT) after an
    uncaught [KeyboardInterrupt]. *)
Definition exit_code (r : result unit) : option Z :=
  match r with
  | Ret _ => Some 0%Z
  | Raise (SystemExit c) => Some c
  | Raise (Exception _) => Some 1%Z
  | Raise KeyboardInterrupt => Some 130%Z
  | OutOfFuel => None
  end.

(** ** Observations on traces *)

Definition is_print (ev : event) : bool :=
  match ev with EvPrint _ => true | _ => false end.

Definition is_update (ev : event) : bool :=
  match ev with EvRpcUpdate _ _ => true | _ => false end.

Definition is_close (ev : event) : bool :=
  match ev with EvRpcClose _ => true | _ => false end.

Definition is_sleep (ev : event) : bool :=
  match ev with EvSleep _ => true | _ => false end.

(** The events [update_status] may produce. *)
Definition update_event (ev : event) : bool :=
  match ev with
  | EvPrint _ | EvTime | EvRpcUpdate _ _ => true
  | _ => false
  end.

(** The events one turn of the loop may produce. *)
Definition loop_event (ev : event) : bool :=
  update_event ev || is_sleep ev.

(** The events [connect] may produce. *)
Definition connect_event (ev : event) : bool :=
  match ev with
  | EvPrint _ | EvPresenceNew _ | EvRpcConnect _ => true
  | _ => false
  end.

Fixpoint count_events (p : event -> bool) (tr : list event) : nat :=
  match tr with
  | [] => 0
  | ev :: tr' => (if p ev then 1 else 0) + count_events p tr'
  end.

Definition updates (w : World) : nat := count_events is_update (trace w).
Definition closes (w : World) : nat := count_events is_close (trace w).
Definition sleeps (w : World) : nat := count_events is_sleep (trace w).

(** [w'] is [w] after some more events, all of them of the kind
    [allowed]. *)
Definition emitted (allowed : event -> bool) (w w' : World) : Prop :=
  exists tr, trace w' = trace w ++ tr /\ forallb allowed tr = true.

(** ** Postconditions *)

(** Running [m] from [s] ends in a result and a state that satisfy [Q]. *)
Definition post {S A} (m : M S A) (s : S) (Q : result A -> S -> Prop) : Prop :=
  Q (fst (m s)) (snd (m s)).

(** An oracle answer that is a return or an instance of [Exception]. *)
Definition tame {A} (o : outcome A) : Prop :=
  match o with
  | Returns _ => True
  | Throws e => is_Exception e = true
  end.

(** The ways in which a run may end: normally, with an exception that
    [ok] accepts, or out of fuel if [div] allows that. *)
Definition ends_within {A} (ok : exn -> bool) (div : bool) (r : result A) : Prop :=
  match r with
  | Ret _ => True
  | Raise e => ok e = true
  | OutOfFuel => div = true
  end.

(** [m] never assigns to an attribute of [self], produces only events
    of the kind [allowed], and ends as [ok] and [div] allow. *)
Definition confined {A} (ok : exn -> bool) (div : bool) (allowed : event -> bool)
    (m : M State A) : Prop :=
  forall st, post m st (fun r st' =>
    self st' = self st /\
    emitted allowed (world st) (world st') /\
    ends_within ok div r).

(** What an oracle throws is an [Exception] or accepted by [ok]. *)
Definition throws_within {A} (ok : exn -> bool) (o : outcome A) : Prop :=
  match o with
  | Returns _ => True
  | Throws e => is_Exception e || ok e = true
  end.

Definition any_exn (e : exn) : bool := true.
Definition no_exn (e : exn) : bool := false.

(** What an oracle throws is caught by one of the [except] clauses of
    [run_continuous] or accepted by [ok]. *)
Definition passes {A} (ok : exn -> bool) (o : outcome A) : Prop :=
  match o with
  | Throws (SystemExit c) => ok (SystemExit c) = true
  | _ => True
  end.

(** An environment in which [main] meets nothing it was not written
    for: a config file that loads holds a JSON object; the file system
    and the Discord client fail with instances of [Exception] only; a
    wait is cut short by Ctrl-C or an [Exception] only. *)
Record calm (env : Env) : Prop := {
  calm_load : forall n p,
    match fs_json_load env n p with
    | Returns v => is_dict v = true
    | Throws e => is_Exception e = true
    end;
  calm_dump : forall n p d, tame (fs_json_dump env n p d);
  calm_new : forall n c, tame (discord_new env n c);
  calm_connect : forall n, tame (discord_connect env n);
  calm_close : forall n, tame (discord_close env n);
  calm_update : forall n d, tame (discord_update env n d);
  calm_sleep : forall n q, passes no_exn (sleep_outcome env n q)
}.

Definition any_event (ev : event) : bool := true.

(** The keyword arguments that reach [rpc.update] when [self.config] is
    the dict [d], the call has the arguments [a] and the clock reads
    [now]: what the [try] block of [update_status] computes on a dict. *)
Definition update_data_of (d : gmap string pyval) (a : kwargs) (now : Q)
  : gmap string pyval :=
  let field (v : pyval) (key : string) := py_or v (default PNone (d !! key)) in
  let data : gmap string pyval :=
    <["start" := PFloat now]>
    (<["large_text" := field (large_text a) "large_text"]>
    (<["large_image" := field (large_image a) "large_image"]>
    (<["details" := field (details a) "details"]>
    (<["state" := field (state a) "state"]> ∅)))) in
  let data :=
    if truthy (field (small_image a) "small_image")
    then <["small_image" := field (small_image a) "small_image"]> data else data in
  let data :=
    if truthy (field (small_text a) "small_text")
    then <["small_text" := field (small_text a) "small_text"]> data else data in
  let data :=
    if truthy (party_id a) then <["party_id" := party_id a]> data else data in
  let data :=
    if truthy (party_size a) then <["party_size" := party_size a]> data else data in
  if truthy (buttons a) then <["buttons" := buttons a]> data else data.

(** The world after one more external call that logged [ev]. *)
Definition after (ev : event) (w : World) : World :=
  {| steps := S (steps w); trace := trace w ++ [ev] |}.

(** The same object in another world. *)
Definition in_world (st : State) (w : World) : State :=
  {| self := self st; world := w |}.

(** ** Concrete environments and objects *)

(** Discord is running, nothing fails, no client id is configured and
    there is no config file; every external call takes one second. *)
Definition quiet_env : Env :=
  {| environ := fun _ => None;
     fs_exists := fun _ _ => false;
     fs_json_load := fun _ _ => Throws (Exception "FileNotFoundError");
     fs_json_dump := fun _ _ _ => Returns tt;
     discord_new := fun _ _ => Returns tt;
     discord_connect := fun _ => Returns tt;
     discord_close := fun _ => Returns tt;
     discord_update := fun _ _ => Returns tt;
     clock := fun n => inject_Z (Z.of_nat n);
     sleep_outcome := fun _ _ => Returns tt |}.

Definition world0 : World := {| steps := 0; trace := [] |}.

Definition fresh_manager : DiscordStatusManager :=
  {| client_id := PStr "1234567890";
     config_file := "discord_config.json";
     rpc := None;
     is_connected := false;
     config := PDict default_config |}.

Definition handle0 : Presence :=
  {| presence_client_id := PStr "1234567890"; presence_serial := 0 |}.

Definition connected_manager : DiscordStatusManager :=
  {| client_id := PStr "1234567890";
     config_file := "discord_config.json";
     rpc := Some handle0;
     is_connected := true;
     config := PDict default_config |}.

Definition fresh_state : State := {| self := fresh_manager; world := world0 |}.
Definition connected_state : State := {| self := connected_manager; world := world0 |}.

(** Discord is running but closing the connection fails. *)
Definition close_fails_env : Env :=
  {| environ := fun _ => None;
     fs_exists := fun _ _ => false;
     fs_json_load := fun _ _ => Throws (Exception "FileNotFoundError");
     fs_json_dump := fun _ _ _ => Returns tt;
     discord_new := fun _ _ => Returns tt;
     discord_connect := fun _ => Returns tt;
     discord_close := fun _ => Throws (Exception "BrokenPipeError");
     discord_update := fun _ _ => Returns tt;
     clock := fun n => inject_Z (Z.of_nat n);
     sleep_outcome := fun _ _ => Returns tt |}.

(** Discord is not running: the connection attempt fails. *)
Definition no_discord_env : Env :=
  {| environ := fun _ => None;
     fs_exists := fun _ _ => false;
     fs_json_load := fun _ _ => Throws (Exception "FileNotFoundError");
     fs_json_dump := fun _ _ _ => Returns tt;
     discord_new := fun _ _ => Returns tt;
     discord_connect := fun _ => Throws (Exception "DiscordNotFound");
     discord_close := fun _ => Returns tt;
     discord_update := fun _ _ => Returns tt;
     clock := fun n => inject_Z (Z.of_nat n);
     sleep_outcome := fun _ _ => Returns tt |}.

(** Ctrl-C arrives during the second wait of the loop (from a fresh
    world that is external call number 8). *)
Definition ctrl_c_env : Env :=
  {| environ := fun _ => None;
     fs_exists := fun _ _ => false;
     fs_json_load := fun _ _ => Throws (Exception "FileNotFoundError");
     fs_json_dump := fun _ _ _ => Returns tt;
     discord_new := fun _ _ => Returns tt;
     discord_connect := fun _ => Returns tt;
     discord_close := fun _ => Returns tt;
     discord_update := fun _ _ => Returns tt;
     clock := fun n => inject_Z (Z.of_nat n);
     sleep_outcome := fun n _ => if (8 <=? n)%nat then Throws KeyboardInterrupt
                                 else Returns tt |}.

(** The interpreter is asked to exit while the second update of the
    loop is being sent: an error that [update_status] does not handle. *)
Definition update_exits_env : Env :=
  {| environ := fun _ => None;
     fs_exists := fun _ _ => false;
     fs_json_load := fun _ _ => Throws (Exception "FileNotFoundError");
     fs_json_dump := fun _ _ _ => Returns tt;
     discord_new := fun _ _ => Returns tt;
     discord_connect := fun _ => Returns tt;
     discord_close := fun _ => Returns tt;
     discord_update := fun n _ => if (8 <=? n)%nat then Throws (SystemExit 0)
                                  else Returns tt;
     clock := fun n => inject_Z (Z.of_nat n);
     sleep_outcome := fun _ _ => Returns tt |}.

(** The client id is in the environment and Discord is not running. *)
Definition id_no_discord_env : Env :=
  {| environ := fun key => if String.eqb key "DISCORD_CLIENT_ID"
                           then Some "1234567890" else None;
     fs_exists := fun _ _ => false;
     fs_json_load := fun _ _ => Throws (Exception "FileNotFoundError");
     fs_json_dump := fun _ _ _ => Returns tt;
     discord_new := fun _ _ => Returns tt;
     discord_connect := fun _ => Throws (Exception "DiscordNotFound");
     discord_close := fun _ => Returns tt;
     discord_update := fun _ _ => Returns tt;
     clock := fun n => inject_Z (Z.of_nat n);
     sleep_outcome := fun _ _ => Returns tt |}.

(** The client id is in the environment, Discord is running, and Ctrl-C
    arrives during the first wait of the loop. *)
Definition id_ctrl_c_env : Env :=
  {| environ := fun key => if String.eqb key "DISCORD_CLIENT_ID"
                           then Some "1234567890" else None;
     fs_exists := fun _ _ => false;
     fs_json_load := fun _ _ => Throws (Exception "FileNotFoundError");
     fs_json_dump := fun _ _ _ => Returns tt;
     discord_new := fun _ _ => Returns tt;
     discord_connect := fun _ => Returns tt;
     discord_close := fun _ => Returns tt;
     discord_update := fun _ _ => Returns tt;
     clock := fun n => inject_Z (Z.of_nat n);
     sleep_outcome := fun _ _ => Throws KeyboardInterrupt |}.

(** A call that passes [state=""] and nothing else. *)
Definition empty_state_kwargs : kwargs :=
  {| state := PStr ""; details := PNone; large_image := PNone;
     large_text := PNone; small_image := PNone; small_text := PNone;
     party_id := PNone; party_size := PNone; buttons := PNone |}.

(** The default record in the specification's words (section 4.1):
    seven fields, the two small ones without a value, and nothing
    else.  It is compared with [default_config], which is the dict the
    source builds. *)
Definition spec_default_config : gmap string pyval :=
  <["state" := PStr "Playing a game"]>
  (<["details" := PStr "Enjoying Discord"]>
  (<["large_image" := PStr "discord"]>
  (<["large_text" := PStr "Discord Rich Presence"]>
  (<["small_image" := PNone]>
  (<["small_text" := PNone]>
  (<["update_interval" := PInt 15]> ∅)))))).

(** ** Further observations and inputs *)

Definition is_rpc_connect (ev : event) : bool :=
  match ev with EvRpcConnect _ => true | _ => false end.

Definition connects (w : World) : nat := count_events is_rpc_connect (trace w).

(** The events [disconnect] may produce. *)
Definition disconnect_event (ev : event) : bool :=
  match ev with
  | EvPrint _ | EvRpcClose _ => true
  | _ => false
  end.

(** The events [resolve_client_id] may produce: it looks at
    [discord_config.json] and at nothing else. *)
Definition config_file_event (ev : event) : bool :=
  match ev with
  | EvExists path | EvJsonLoad path => String.eqb path "discord_config.json"
  | _ => false
  end.

(** The six arguments for which [update_status] consults the config
    when they are falsy. *)
Definition merged_args_truthy (a : kwargs) : bool :=
  truthy (state a) && truthy (details a) && truthy (large_image a) &&
  truthy (large_text a) && truthy (small_image a) && truthy (small_text a).

(** Whether [time.sleep] rejects the value before waiting. *)
Definition sleep_rejects (v : pyval) : bool :=
  match sleep_seconds v with
  | None => true
  | Some q => negb (Qle_bool 0 q)
  end.

(** What the loop of a run on the dict config [d] may add to the trace:
    clock readings, prints, waits of the configured length and updates
    built from the config alone. *)
Definition tick_event (d : gmap string pyval) (update_interval : pyval)
    (ev : event) : Prop :=
  match ev with
  | EvPrint _ | EvTime => True
  | EvSleep q => sleep_seconds update_interval = Some q
  | EvRpcUpdate _ data => exists now, data = update_data_of d no_kwargs now
  | _ => False
  end.

(** What a whole run on the dict config [d] may add to the trace: the
    connection, the events of the loop, and the close. *)
Definition run_event (d : gmap string pyval) (update_interval : pyval)
    (ev : event) : Prop :=
  match ev with
  | EvPresenceNew _ | EvRpcConnect _ | EvRpcClose _ => True
  | _ => tick_event d update_interval ev
  end.

(** Prints and clock readings. *)
Definition quiet_event (ev : event) : bool :=
  match ev with
  | EvPrint _ | EvTime => true
  | _ => false
  end.

(** [w'] is [w] after some more events, each of which satisfies [P]. *)
Definition grew (P : event -> Prop) (w w' : World) : Prop :=
  exists tr, trace w' = trace w ++ tr /\ Forall P tr.

(** Prints and file system calls. *)
Definition file_event (ev : event) : bool :=
  match ev with
  | EvPrint _ | EvExists _ | EvJsonLoad _ | EvJsonDump _ _ => true
  | _ => false
  end.

(** The client id that the [client_id] key of a loaded config file
    gives: [cfg.get("client_id")] on a dict, and [None] after the
    [AttributeError] of anything else. *)
Definition config_client_id (cfg : pyval) : pyval :=
  match cfg with
  | PDict d => default PNone (d !! "client_id")
  | _ => PNone
  end.

(** The environment has no client id; the config file gives it as a
    number. *)
Definition id_in_file_env : Env :=
  {| environ := fun _ => None;
     fs_exists := fun _ _ => true;
     fs_json_load := fun _ _ =>
       Returns (PDict (<["client_id" := PInt 1234567890]> default_config));
     fs_json_dump := fun _ _ _ => Returns tt;
     discord_new := fun _ _ => Returns tt;
     discord_connect := fun _ => Returns tt;
     discord_close := fun _ => Returns tt;
     discord_update := fun _ _ => Returns tt;
     clock := fun n => inject_Z (Z.of_nat n);
     sleep_outcome := fun _ _ => Throws KeyboardInterrupt |}.

(** Everything except a call to the file system. *)
Definition no_file_event (ev : event) : bool :=
  match ev with
  | EvExists _ | EvJsonLoad _ | EvJsonDump _ _ => false
  | _ => true
  end.

(** A connected manager whose config file held a JSON array. *)
Definition array_config_state : State :=
  {| self := {| client_id := PStr "1234567890";
                config_file := "discord_config.json";
                rpc := None; is_connected := false;
                config := PList [] |};
     world := world0 |}.

(** A manager whose config gives [update_interval] as a string. *)
Definition text_interval_state : State :=
  {| self := {| client_id := PStr "1234567890";
                config_file := "discord_config.json";
                rpc := None; is_connected := false;
                config := PDict (<["update_interval" := PStr "15"]> default_config) |};
     world := world0 |}.

(** A manager whose config has a [state] and nothing else. *)
Definition sparse_config_state : State :=
  {| self := {| client_id := PStr "1234567890";
                config_file := "discord_config.json";
                rpc := None; is_connected := false;
                config := PDict (<["state" := PStr "Idle"]> ∅) |};
     world := world0 |}.

(** Discord is running but every update is refused. *)
Definition refused_updates_env : Env :=
  {| environ := fun _ => None;
     fs_exists := fun _ _ => false;
     fs_json_load := fun _ _ => Throws (Exception "FileNotFoundError");
     fs_json_dump := fun _ _ _ => Returns tt;
     discord_new := fun _ _ => Returns tt;
     discord_connect := fun _ => Returns tt;
     discord_close := fun _ => Returns tt;
     discord_update := fun _ _ => Throws (Exception "PipeClosed");
     clock := fun n => inject_Z (Z.of_nat n);
     sleep_outcome := fun _ _ => Returns tt |}.

(** The config file exists and holds the JSON array [[]]; the disk is
    full, so writing fails. *)
Definition array_file_env : Env :=
  {| environ := fun _ => None;
     fs_exists := fun _ _ => true;
     fs_json_load := fun _ _ => Returns (PList []);
     fs_json_dump := fun _ _ _ => Throws (Exception "OSError");
     discord_new := fun _ _ => Returns tt;
     discord_connect := fun _ => Returns tt;
     discord_close := fun _ => Returns tt;
     discord_update := fun _ _ => Returns tt;
     clock := fun n => inject_Z (Z.of_nat n);
     sleep_outcome := fun _ _ => Returns tt |}.

(** The client id is in the environment and nothing fails. *)
Definition id_quiet_env : Env :=
  {| environ := fun key => if String.eqb key "DISCORD_CLIENT_ID"
                           then Some "1234567890" else None;
     fs_exists := fun _ _ => false;
     fs_json_load := fun _ _ => Throws (Exception "FileNotFoundError");
     fs_json_dump := fun _ _ _ => Returns tt;
     discord_new := fun _ _ => Returns tt;
     discord_connect := fun _ => Returns tt;
     discord_close := fun _ => Returns tt;
     discord_update := fun _ _ => Returns tt;
     clock := fun n => inject_Z (Z.of_nat n);
     sleep_outcome := fun _ _ => Returns tt |}.

(** * The setup utility of [setup.py]

    The functions of [setup.py] that deal with the client id and with
    the installed files.  They print, look at the file system, write
    text files and read lines from the terminal; they share the monad of
    the manager but have a world of their own.  [str.strip],
    [str.isdigit] and [len] on a [str] are parameters. *)

Module Setup.

Inductive message :=
| MsgHeaderTop
| MsgHeaderTitle (title : string)
| MsgHeaderBottom
| MsgHowTo (line : nat)
| MsgRule
| MsgEmptyId
| MsgInvalidId
| MsgAcceptedId (client_id : string)
| MsgScriptMissing (path : string)
| MsgSkipSource (path : string)
| MsgSavedEnv (path : string)
| MsgEnvWriteFailed (e : exn)
| MsgFileStatus (found : bool) (file : string)
| MsgAllFound
| MsgSomeMissing.

Inductive event :=
| EvPrint (m : message)
| EvExists (path : string)
| EvWriteText (path content : string)
| EvInput (prompt : string).

Record World := { steps : nat; trace : list event }.

(** What the file system and the terminal answer to the external call
    number [n]. *)
Record Env := {
  fs_exists : nat -> string -> bool;
  fs_write_text : nat -> string -> string -> outcome unit;
  stdin : nat -> outcome string
}.

Definition external {A} (ev : event) (answer : nat -> outcome A) : M World A :=
  fun w =>
    let w' := {| steps := S (steps w); trace := trace w ++ [ev] |} in
    match answer (steps w) with
    | Returns a => (Ret a, w')
    | Throws e => (Raise e, w')
    end.

Definition print (m : message) : M World unit :=
  fun w => (Ret tt, {| steps := steps w; trace := trace w ++ [EvPrint m] |}).

Definition newline : string := String (Ascii.ascii_of_nat 10) "".

Definition required_files : list string :=
  ["discord_status.py"; "examples.py"; "discord_config.json";
   "requirements.txt"; "README.md"].

Definition is_write (ev : event) : bool :=
  match ev with EvWriteText _ _ => true | _ => false end.

Definition is_input (ev : event) : bool :=
  match ev with EvInput _ => true | _ => false end.

(** The two messages with which [get_client_id] turns a line down. *)
Definition is_rejection (ev : event) : bool :=
  match ev with
  | EvPrint MsgEmptyId | EvPrint MsgInvalidId => true
  | _ => false
  end.

Fixpoint count_events (p : event -> bool) (tr : list event) : nat :=
  match tr with
  | [] => 0
  | ev :: tr' => (if p ev then 1 else 0) + count_events p tr'
  end.

Section Program.

Variable env : Env.

(** [s.strip()], [s.isdigit()] and [len(s)] of Python's [str]. *)
Variable str_strip : string -> string.
Variable str_isdigit : string -> bool.
Variable str_len : string -> nat.

(** [Path(path).exists()] *)
Definition path_exists (path : string) : M World bool :=
  external (EvExists path) (fun n => Returns (fs_exists env n path)).


Definition input (prompt : string) : M World string :=
  external (EvInput prompt) (stdin env).

Definition print_header (title : string) : M World unit :=
  print MsgHeaderTop;;
  print (MsgHeaderTitle title);;
  print MsgHeaderBottom.

(** Whether the two tests of the loop of [get_client_id] let the
    stripped line through. *)
Definition acceptable (client_id : string) : bool :=
  negb (String.eqb client_id "") &&
  negb (negb (str_isdigit client_id) || Nat.ltb (str_len client_id) 15).

(** The [while True] loop of [get_client_id]; each turn reads one line. *)
Fixpoint get_client_id_loop (fuel : nat) : M World string :=
  match fuel with
  | O => out_of_fuel
  | S fuel' =>
      line <- input (String.append newline "Enter your Discord Client ID: ");;
      let client_id := str_strip line in
      if String.eqb client_id "" then
        print MsgEmptyId;;
        get_client_id_loop fuel'
      else if negb (str_isdigit client_id) || Nat.ltb (str_len client_id) 15 then
        print MsgInvalidId;;
        get_client_id_loop fuel'
      else
        print (MsgAcceptedId client_id);;
        ret client_id
  end.

Definition get_client_id (fuel : nat) : M World string :=
  print_header "Discord Client ID Setup";;
  print (MsgHowTo 0);;
  print (MsgHowTo 1);;
  print (MsgHowTo 2);;
  print (MsgHowTo 3);;
  print (MsgHowTo 4);;
  print MsgRule;;
  get_client_id_loop fuel.




(** The [for] loop of [verify_installation]: each file is looked up
    twice, once for the printed mark and once for the result. *)
Fixpoint check_files (files : list string) (all_exist : bool) : M World bool :=
  match files with
  | [] => ret all_exist
  | file :: rest =>
      shown <- path_exists file;;
      print (MsgFileStatus shown file);;
      found <- path_exists file;;
      check_files rest (if negb found then false else all_exist)
  end.

Definition verify_installation : M World bool :=
  print_header "Verifying Installation";;
  all_exist <- check_files required_files true;;
  (if all_exist : bool then print MsgAllFound else print MsgSomeMissing);;
  ret all_exist.

End Program.

(** A terminal on which the user types an empty line, then a short
    number, then a valid id; the scripts are installed and writing
    works. *)
Definition typing_env : Env :=
  {| fs_exists := fun _ _ => true;
     fs_write_text := fun _ _ _ => Returns tt;
     stdin := fun n =>
       match n with
       | 0 => Returns ""
       | 1 => Returns "12345"
       | _ => Returns "123456789012345678"
       end |}.

(** Nothing is installed. *)
Definition bare_env : Env :=
  {| fs_exists := fun _ _ => false;
     fs_write_text := fun _ _ _ => Throws (Exception "PermissionError");
     stdin := fun _ => Throws (Exception "EOFError") |}.

(** Stand-ins for the [str] methods on the digits-only lines of
    [typing_env]: nothing to strip, every line is digits, the length is
    the number of bytes. *)
Definition ascii_strip (s : string) : string := s.
Definition ascii_isdigit (s : string) : bool := true.

Definition world0 : World := {| steps := 0; trace := [] |}.



End Setup.

(** * Properties *)

(** ** The monad and the postcondition rules *)

Lemma post_ret {S A} (a : A) (s : S) Q : Q (Ret a) s -> post (ret a) s Q.
Proof. exact (fun H => H). Qed.

Lemma post_raise {S A} (e : exn) (s : S) (Q : result A -> S -> Prop) :
  Q (Raise e) s -> post (raise e) s Q.
Proof. exact (fun H => H). Qed.

Lemma post_get {S} (s : S) Q : Q (Ret s) s -> post get s Q.
Proof. exact (fun H => H). Qed.

Lemma post_modify {S} (f : S -> S) (s : S) Q : Q (Ret tt) (f s) -> post (modify f) s Q.
Proof. exact (fun H => H). Qed.

Lemma post_bind {S A B} (m : M S A) (k : A -> M S B) (s : S) Q :
  post m s (fun r s' =>
    match r with
    | Ret a => post (k a) s' Q
    | Raise e => Q (Raise e) s'
    | OutOfFuel => Q OutOfFuel s'
    end) ->
  post (bind m k) s Q.
Proof.
  unfold post, bind. destruct (m s) as [[a|e|] s']; simpl; auto.
Qed.

Lemma post_conseq {S A} (m : M S A) (s : S) (Q Q' : result A -> S -> Prop) :
  post m s Q -> (forall r s', Q r s' -> Q' r s') -> post m s Q'.
Proof. unfold post. auto. Qed.

Lemma post_try_except {S A} (body : M S A) handlers (s : S) Q :
  post body s (fun r s' =>
    match r with
    | Raise e =>
        match handlers e with
        | Some h => post h s' Q
        | None => Q (Raise e) s'
        end
    | _ => Q r s'
    end) ->
  post (try_except body handlers) s Q.
Proof.
  unfold post, try_except. destruct (body s) as [[a|e|] s']; simpl; auto.
  destruct (handlers e); auto.
Qed.

Lemma post_try_finally {S A} (body : M S A) final (s : S) Q :
  post body s (fun r s' =>
    match r with
    | OutOfFuel => Q OutOfFuel s'
    | _ => post final s' (fun rf s'' =>
             match rf with
             | Ret _ => Q r s''
             | Raise e => Q (Raise e) s''
             | OutOfFuel => Q OutOfFuel s''
             end)
    end) ->
  post (try_finally body final) s Q.
Proof.
  unfold post, try_finally.
  destruct (body s) as [[a|e|] s']; simpl; auto;
    destruct (final s') as [[u|e'|] s'']; simpl; auto.
Qed.

Lemma post_lift {A} (m : M World A) (st : State) Q :
  post m (world st) (fun r w => Q r {| self := self st; world := w |}) ->
  post (lift m) st Q.
Proof.
  unfold post, lift. destruct (m (world st)) as [r w]. auto.
Qed.

Lemma post_external {A} (ev : event) (answer : nat -> outcome A) (w : World) Q :
  (forall w', steps w' = S (steps w) -> trace w' = trace w ++ [ev] ->
     match answer (steps w) with
     | Returns a => Q (Ret a) w'
     | Throws e => Q (Raise e) w'
     end) ->
  post (external ev answer) w Q.
Proof.
  intros H. unfold post, external.
  specialize (H {| steps := S (steps w); trace := trace w ++ [ev] |} eq_refl eq_refl).
  destruct (answer (steps w)); exact H.
Qed.

Lemma post_print (m : message) (w : World) Q :
  Q (Ret tt) (log (EvPrint m) w) -> post (print m) w Q.
Proof. exact (fun H => H). Qed.

(** ** Traces *)

Lemma count_events_app p tr1 tr2 :
  count_events p (tr1 ++ tr2) = count_events p tr1 + count_events p tr2.
Proof.
  induction tr1 as [|ev tr1 IH]; simpl; [reflexivity|].
  rewrite IH. lia.
Qed.

Lemma count_events_none p allowed tr :
  (forall ev, allowed ev = true -> p ev = false) ->
  forallb allowed tr = true -> count_events p tr = 0.
Proof.
  intros Hp. induction tr as [|ev tr IH]; simpl; [reflexivity|].
  intros H. apply andb_prop in H as [Hev Htr].
  rewrite (Hp _ Hev), IH; auto.
Qed.

Lemma emitted_refl allowed w : emitted allowed w w.
Proof. exists []. rewrite app_nil_r. auto. Qed.

Lemma emitted_trans allowed w1 w2 w3 :
  emitted allowed w1 w2 -> emitted allowed w2 w3 -> emitted allowed w1 w3.
Proof.
  intros (tr1 & E1 & F1) (tr2 & E2 & F2). exists (tr1 ++ tr2).
  rewrite E2, E1, <- app_assoc, forallb_app, F1, F2. auto.
Qed.

Lemma emitted_one allowed ev w w' :
  allowed ev = true -> trace w' = trace w ++ [ev] -> emitted allowed w w'.
Proof.
  intros Hev E. exists [ev]. simpl. rewrite Hev. auto.
Qed.

Lemma emitted_weaken (allowed allowed' : event -> bool) w w' :
  (forall ev, allowed ev = true -> allowed' ev = true) ->
  emitted allowed w w' -> emitted allowed' w w'.
Proof.
  intros Hsub (tr & E & F). exists tr. split; [exact E|].
  rewrite forallb_forall in *. auto.
Qed.

Lemma emitted_count p allowed w w' :
  (forall ev, allowed ev = true -> p ev = false) ->
  emitted allowed w w' ->
  count_events p (trace w') = count_events p (trace w).
Proof.
  intros Hp (tr & E & F).
  rewrite E, count_events_app, (count_events_none p allowed tr Hp F). lia.
Qed.

(** ** Rules for [confined] *)

Lemma confined_weaken {A} (ok ok' : exn -> bool) (div div' : bool)
    (allowed allowed' : event -> bool) (m : M State A) :
  (forall e, ok e = true -> ok' e = true) ->
  (div = true -> div' = true) ->
  (forall ev, allowed ev = true -> allowed' ev = true) ->
  confined ok div allowed m -> confined ok' div' allowed' m.
Proof.
  intros Hok Hdiv Hall Hm st. specialize (Hm st). unfold post in *.
  destruct Hm as (Hs & He & Hr). repeat split; auto.
  - eapply emitted_weaken; eauto.
  - destruct (fst (m st)); simpl in *; auto.
Qed.

Lemma confined_ret {A} ok div allowed (a : A) : confined ok div allowed (ret a).
Proof. intros st. repeat split. apply emitted_refl. Qed.

Lemma confined_raise {A} (ok : exn -> bool) div allowed e :
  ok e = true -> confined (A := A) ok div allowed (raise e).
Proof. intros H st. repeat split; auto. apply emitted_refl. Qed.

Lemma confined_out_of_fuel {A} ok allowed :
  confined (A := A) ok true allowed out_of_fuel.
Proof. intros st. repeat split. apply emitted_refl. Qed.

Lemma confined_get ok div allowed : confined ok div allowed get.
Proof. intros st. repeat split. apply emitted_refl. Qed.

Lemma confined_bind {A B} ok div allowed (m : M State A) (k : A -> M State B) :
  confined ok div allowed m ->
  (forall a, confined ok div allowed (k a)) ->
  confined ok div allowed (bind m k).
Proof.
  intros Hm Hk st. apply post_bind.
  eapply post_conseq; [apply Hm|]. intros r st1 (Hs & He & Hr).
  destruct r as [a|e|]; [|repeat split; auto..].
  eapply post_conseq; [apply Hk|]. intros r' st2 (Hs' & He' & Hr').
  repeat split; [congruence | eapply emitted_trans; eauto | auto].
Qed.

Lemma confined_try_except {A} ok1 ok div allowed (body : M State A) handlers :
  confined ok1 div allowed body ->
  (forall e, ok1 e = true ->
     match handlers e with
     | Some h => confined ok div allowed h
     | None => ok e = true
     end) ->
  confined ok div allowed (try_except body handlers).
Proof.
  intros Hb Hh st. apply post_try_except.
  eapply post_conseq; [apply Hb|]. intros r st1 (Hs & He & Hr).
  destruct r as [a|e|]; [repeat split; auto| |repeat split; auto].
  specialize (Hh e Hr). destruct (handlers e) as [h|]; [|repeat split; auto].
  eapply post_conseq; [apply Hh|]. intros r' st2 (Hs' & He' & Hr').
  repeat split; [congruence | eapply emitted_trans; eauto | auto].
Qed.

Lemma confined_external {A} (ok : exn -> bool) div (allowed : event -> bool) ev
    (answer : nat -> outcome A) :
  allowed ev = true ->
  (forall n, match answer n with Returns _ => True | Throws e => ok e = true end) ->
  confined ok div allowed (lift (external ev answer)).
Proof.
  intros Hev Hans st. apply post_lift, post_external. intros w' _ Htr.
  specialize (Hans (steps (world st))).
  destruct (answer (steps (world st))); repeat split; auto;
    eapply emitted_one; eauto.
Qed.

Lemma confined_print ok div (allowed : event -> bool) m :
  allowed (EvPrint m) = true -> confined ok div allowed (lift (print m)).
Proof.
  intros Hev st. apply post_lift, post_print. repeat split.
  eapply emitted_one; eauto.
Qed.

Lemma confined_py_get ok div allowed obj key dflt :
  (forall cls, ok (Exception cls) = true) ->
  confined ok div allowed (py_get obj key dflt).
Proof.
  intros Hok. destruct obj; first [apply confined_ret | apply confined_raise, Hok].
Qed.

Lemma confined_config_get ok div allowed key dflt :
  (forall cls, ok (Exception cls) = true) ->
  confined ok div allowed (config_get key dflt).
Proof.
  intros Hok. apply confined_bind; [apply confined_get|].
  intros st. apply confined_py_get, Hok.
Qed.

Lemma confined_or_config ok div allowed v key :
  (forall cls, ok (Exception cls) = true) ->
  confined ok div allowed (or_config v key).
Proof.
  intros Hok. unfold or_config.
  destruct (truthy v); [apply confined_ret | apply confined_config_get, Hok].
Qed.

Lemma confined_time_time env ok div :
  confined ok div update_event (lift (time_time env)).
Proof. apply confined_external; [reflexivity | intros n; exact I]. Qed.

Create HintDb confine.
#[local] Hint Resolve confined_ret confined_get confined_bind confined_print
  confined_or_config confined_config_get confined_time_time : confine.
#[local] Hint Extern 1 (_ = true) => reflexivity : confine.
#[local] Hint Extern 2 (confined _ _ _ (if ?b then _ else _)) => destruct b : confine.

Lemma confined_build_update_data env ok div a :
  (forall cls, ok (Exception cls) = true) ->
  confined ok div update_event (build_update_data env a).
Proof.
  intros Hok. unfold build_update_data.
  repeat (apply confined_bind; [auto with confine|]; intros ?).
  auto with confine.
Qed.

(** ** [update_status] *)

Lemma throws_within_any {A} (o : outcome A) : throws_within any_exn o.
Proof. destruct o; simpl; [exact I | apply orb_true_r]. Qed.

Lemma confined_update_status env ok a :
  (forall n d, throws_within ok (discord_update env n d)) ->
  confined ok false update_event (update_status env a).
Proof.
  intros Hup. unfold update_status.
  apply confined_bind; [apply confined_get|]. intros st.
  destruct (is_connected (self st)), (rpc (self st)) as [h|];
    try (apply confined_bind; [apply confined_print; reflexivity|];
         intros; apply confined_ret).
  apply confined_try_except with (ok1 := fun e => is_Exception e || ok e).
  - apply confined_bind; [apply confined_build_update_data; reflexivity|].
    intros data.
    apply confined_bind.
    { apply confined_external; [reflexivity|]. intros n.
      specialize (Hup n data). destruct (discord_update env n data); auto. }
    intros _. apply confined_bind; [apply confined_or_config; reflexivity|].
    intros shown. auto with confine.
  - intros e He. unfold except_Exception.
    destruct (is_Exception e); simpl in He; auto with confine.
Qed.

Lemma or_config_dict v key st d :
  config (self st) = PDict d ->
  or_config v key st = (Ret (py_or v (default PNone (d !! key))), st).
Proof.
  intros H. unfold or_config, py_or.
  destruct (truthy v); [reflexivity|].
  unfold config_get, bind, get. rewrite H. reflexivity.
Qed.

Lemma build_update_data_dict env a st d :
  config (self st) = PDict d ->
  build_update_data env a st =
    (Ret (update_data_of d a (clock env (steps (world st)))),
     in_world st (after EvTime (world st))).
Proof.
  intros H. unfold build_update_data, bind.
  rewrite !(or_config_dict _ _ st d H).
  unfold lift at 1, time_time, external. cbv beta iota zeta.
  set (st1 := {| self := self st; world := _ |}).
  assert (H1 : config (self st1) = PDict d) by exact H.
  rewrite !(or_config_dict _ _ st1 d H1).
  unfold update_data_of, in_world, after, ret.
  destruct (truthy (py_or (small_image a) _));
    rewrite ?(or_config_dict _ _ st1 d H1);
    destruct (truthy (py_or (small_text a) _));
    rewrite ?(or_config_dict _ _ st1 d H1); reflexivity.
Qed.

(** What [update_status] does on a connected manager whose config is a
    dict: one clock reading, one call of [rpc.update], one line printed
    unless the call threw something that is not an [Exception]. *)
Lemma update_status_connected_dict env a st d h :
  is_connected (self st) = true ->
  rpc (self st) = Some h ->
  config (self st) = PDict d ->
  let data := update_data_of d a (clock env (steps (world st))) in
  let w2 := after (EvRpcUpdate h data) (after EvTime (world st)) in
  update_status env a st =
    match discord_update env (S (steps (world st))) data with
    | Returns _ =>
        (Ret true,
         in_world st (log (EvPrint (MsgStatusUpdated
           (py_or (state a) (default PNone (d !! "state"))))) w2))
    | Throws e =>
        if is_Exception e
        then (Ret false, in_world st (log (EvPrint (MsgErrorUpdating e)) w2))
        else (Raise e, in_world st w2)
    end.
Proof.
  intros Hc Hr Hd data w2. unfold update_status, bind at 1, get.
  rewrite Hc, Hr. unfold try_except, bind at 1.
  rewrite (build_update_data_dict env a st d Hd). fold data.
  unfold bind at 1, lift at 1, rpc_update, external.
  cbn [world in_world after steps trace]. fold data.
  destruct (discord_update env (S (steps (world st))) data) as [[]|e].
  - unfold bind at 1. erewrite or_config_dict by exact Hd. reflexivity.
  - unfold except_Exception. destruct (is_Exception e); reflexivity.
Qed.

Lemma update_status_not_connected env a st :
  is_connected (self st) = false ->
  update_status env a st =
    (Ret false, in_world st (log (EvPrint MsgNotConnected) (world st))).
Proof.
  intros H. unfold update_status, bind at 1, get. rewrite H. reflexivity.
Qed.

(** ** [connect] and [disconnect] *)

Lemma connect_cases env st :
  let n := steps (world st) in
  let cid := client_id (self st) in
  let h := {| presence_client_id := cid; presence_serial := n |} in
  let w1 := after (EvPresenceNew cid) (world st) in
  let w2 := after (EvRpcConnect h) w1 in
  let opened := {| client_id := cid; config_file := config_file (self st);
                   rpc := Some h; is_connected := is_connected (self st);
                   config := config (self st) |} in
  let flag b (m : DiscordStatusManager) :=
    {| client_id := client_id m; config_file := config_file m; rpc := rpc m;
       is_connected := b; config := config m |} in
  connect env st =
    match discord_new env n cid with
    | Throws e =>
        if is_Exception e
        then (Ret false, {| self := flag false (self st);
                            world := log (EvPrint (MsgConnectFailed e)) w1 |})
        else (Raise e, {| self := self st; world := w1 |})
    | Returns _ =>
        match discord_connect env (S n) with
        | Throws e =>
            if is_Exception e
            then (Ret false, {| self := flag false opened;
                                world := log (EvPrint (MsgConnectFailed e)) w2 |})
            else (Raise e, {| self := opened; world := w2 |})
        | Returns _ =>
            (Ret true, {| self := flag true opened;
                          world := log (EvPrint MsgConnected) w2 |})
        end
    end.
Proof.
  unfold connect, Presence_new, rpc_connect, try_except, except_Exception,
    bind, lift, external, get, ret, set_rpc, set_is_connected, modify, print,
    after, log.
  simpl.
  destruct (discord_new env (steps (world st)) (client_id (self st))) as [[]|e];
    simpl.
  - destruct (discord_connect env (S (steps (world st)))) as [[]|e]; simpl;
      [reflexivity|]. destruct (is_Exception e); reflexivity.
  - destruct (is_Exception e); reflexivity.
Qed.

Lemma disconnect_cases env st :
  let flag b (m : DiscordStatusManager) :=
    {| client_id := client_id m; config_file := config_file m; rpc := rpc m;
       is_connected := b; config := config m |} in
  disconnect env st =
    match rpc (self st), is_connected (self st) with
    | Some h, true =>
        let w1 := after (EvRpcClose h) (world st) in
        match discord_close env (steps (world st)) with
        | Returns _ =>
            (Ret tt, {| self := flag false (self st);
                        world := log (EvPrint MsgDisconnected) w1 |})
        | Throws e =>
            if is_Exception e
            then (Ret tt, in_world st (log (EvPrint (MsgErrorDisconnecting e)) w1))
            else (Raise e, in_world st w1)
        end
    | _, _ => (Ret tt, st)
    end.
Proof.
  cbv zeta. unfold disconnect, bind at 1, get.
  destruct (rpc (self st)) as [h|] eqn:Hr; [|reflexivity].
  destruct (is_connected (self st)); [|reflexivity].
  unfold rpc_close, try_except, except_Exception, bind, lift, external,
    set_is_connected, modify, print, in_world, after, log.
  simpl.
  destruct (discord_close env (steps (world st))) as [[]|e]; simpl;
    [rewrite Hr; reflexivity|]. destruct (is_Exception e); reflexivity.
Qed.

(** ** The merged fields *)

Lemma update_data_of_required d a now f arg :
  In (f, arg) [("state", state a); ("details", details a);
               ("large_image", large_image a); ("large_text", large_text a)] ->
  update_data_of d a now !! f = Some (py_or arg (default PNone (d !! f))).
Proof.
  intros Hin. unfold update_data_of.
  repeat match goal with |- context [if ?b then _ else _] => destruct b end;
    simpl in Hin; intuition (simplify_eq; by simplify_map_eq).
Qed.

Lemma update_data_of_small d a now f arg :
  In (f, arg) [("small_image", small_image a); ("small_text", small_text a)] ->
  update_data_of d a now !! f =
    (if truthy (py_or arg (default PNone (d !! f)))
     then Some (py_or arg (default PNone (d !! f))) else None).
Proof.
  intros Hin. unfold update_data_of. simpl in Hin.
  destruct Hin as [E|[E|[]]]; simplify_eq;
    repeat match goal with |- context [if ?b then _ else _] => destruct b end;
    by simplify_map_eq.
Qed.

Lemma update_data_of_extra d a now f arg :
  In (f, arg) [("party_id", party_id a); ("party_size", party_size a);
               ("buttons", buttons a)] ->
  update_data_of d a now !! f = (if truthy arg then Some arg else None).
Proof.
  intros Hin. unfold update_data_of. simpl in Hin.
  destruct Hin as [E|[E|[E|[]]]]; simplify_eq;
    repeat match goal with |- context [if ?b then _ else _] => destruct b end;
    by simplify_map_eq.
Qed.

Lemma update_data_of_start d a now :
  update_data_of d a now !! "start" = Some (PFloat now).
Proof.
  unfold update_data_of.
  repeat match goal with |- context [if ?b then _ else _] => destruct b end;
    by simplify_map_eq.
Qed.

Lemma py_or_truthy a b : truthy b = true -> truthy (py_or a b) = true.
Proof. unfold py_or. destruct (truthy a) eqn:E; auto. Qed.

Lemma update_status_sends env a st d h :
  is_connected (self st) = true ->
  rpc (self st) = Some h ->
  config (self st) = PDict d ->
  exists tail,
    trace (world (snd (update_status env a st))) =
      trace (world st) ++
      EvTime :: EvRpcUpdate h (update_data_of d a (clock env (steps (world st)))) :: tail
    /\ forallb is_print tail = true.
Proof.
  intros Hc Hr Hd. rewrite (update_status_connected_dict env a st d h Hc Hr Hd).
  destruct (discord_update _ _ _) as [[]|e]; [|destruct (is_Exception e)];
    simpl; rewrite <- ?app_assoc; simpl; eexists; split; reflexivity.
Qed.

(** C2, as the specification words it, fails: a call that passes
    [state=""] does not send the empty string; the [or] of line 126
    treats it as missing and sends the config's value. *)
Lemma update_status_replaces_empty_state :
  state empty_state_kwargs = PStr "" /\
  exists data tail,
    trace (world (snd (update_status quiet_env empty_state_kwargs connected_state))) =
      EvTime :: EvRpcUpdate handle0 data :: tail /\
    data !! "state" = Some (PStr "Playing a game") /\
    data !! "state" <> Some (state empty_state_kwargs).
Proof.
  split; [reflexivity|].
  destruct (update_status_sends quiet_env empty_state_kwargs connected_state
              default_config handle0 eq_refl eq_refl eq_refl) as (tail & Htr & _).
  eexists _, tail. split; [exact Htr|].
  rewrite (update_data_of_required _ _ _ "state" (PStr "")) by (left; reflexivity).
  split; [reflexivity | discriminate].
Qed.

(** C2 (amended) — On a connected manager whose config is the dict [d],
    [update_status] sends one update whose fields are resolved one by
    one: [state], [details], [large_image] and [large_text] are the call
    argument when it is truthy, and otherwise (argument left out, [None]
    or the empty string) the config's value, [None] if the config has
    none; such a field is never empty when the config's value is not
    empty.  [small_image] and [small_text] are resolved the same way and
    are left out when the resolved value is falsy; [party_id],
    [party_size] and [buttons] are sent only when the argument is
    truthy; [start] is the clock reading. *)
Theorem update_status_merges_fields env a st d h :
  is_connected (self st) = true ->
  rpc (self st) = Some h ->
  config (self st) = PDict d ->
  exists data tail,
    trace (world (snd (update_status env a st))) =
      trace (world st) ++ EvTime :: EvRpcUpdate h data :: tail /\
    (forall f arg,
       In (f, arg) [("state", state a); ("details", details a);
                    ("large_image", large_image a); ("large_text", large_text a)] ->
       let from_config := default PNone (d !! f) in
       data !! f = Some (if truthy arg then arg else from_config) /\
       (truthy from_config = true ->
        exists v, data !! f = Some v /\ truthy v = true)) /\
    (forall f arg,
       In (f, arg) [("small_image", small_image a); ("small_text", small_text a)] ->
       let resolved := if truthy arg then arg else default PNone (d !! f) in
       data !! f = if truthy resolved then Some resolved else None) /\
    (forall f arg,
       In (f, arg) [("party_id", party_id a); ("party_size", party_size a);
                    ("buttons", buttons a)] ->
       data !! f = if truthy arg then Some arg else None) /\
    data !! "start" = Some (PFloat (clock env (steps (world st)))).
Proof.
  intros Hc Hr Hd.
  destruct (update_status_sends env a st d h Hc Hr Hd) as (tail & Htr & _).
  eexists _, tail. split; [exact Htr|].
  split; [|split; [|split]].
  - intros f arg Hin from_config.
    rewrite (update_data_of_required d a _ f arg Hin). fold from_config.
    split; [reflexivity|]. intros Ht. eexists. split; [reflexivity|].
    apply py_or_truthy, Ht.
  - intros f arg Hin. apply (update_data_of_small d a _ f arg Hin).
  - intros f arg Hin. apply (update_data_of_extra d a _ f arg Hin).
  - apply update_data_of_start.
Qed.

Lemma update_status_merges_fields_witness :
  exists data tail,
    trace (world (snd (update_status quiet_env empty_state_kwargs connected_state))) =
      trace (world connected_state) ++ EvTime :: EvRpcUpdate handle0 data :: tail /\
    data !! "start" = Some (PFloat (clock quiet_env 0)).
Proof.
  destruct (update_status_merges_fields quiet_env empty_state_kwargs
              connected_state default_config handle0 eq_refl eq_refl eq_refl)
    as (data & tail & Htr & _ & _ & _ & Hstart).
  exists data, tail. split; [exact Htr | exact Hstart].
Defined.

(** ** [load_config] *)

Lemma default_config_is_spec_plus_auto_start :
  default_config = <["auto_start" := PBool true]> spec_default_config.
Proof.
  apply map_eq. intros k. unfold default_config, spec_default_config.
  repeat (destruct (decide (k = _)) as [->|];
          [by simplify_map_eq | rewrite ?lookup_insert_ne by done]);
    by simplify_map_eq.
Qed.

Lemma load_config_cases env st :
  let path := config_file (self st) in
  let n := steps (world st) in
  let w1 := after (EvExists path) (world st) in
  let w2 := after (EvJsonLoad path) w1 in
  load_config env st =
    if fs_exists env n path then
      match fs_json_load env (S n) path with
      | Returns v => (Ret v, in_world st w2)
      | Throws e =>
          if is_Exception e
          then (Ret (PDict default_config),
                in_world st (log (EvPrint (MsgErrorLoadingConfig e)) w2))
          else (Raise e, in_world st w2)
      end
    else (Ret (PDict default_config), in_world st w1).
Proof.
  cbv zeta.
  unfold load_config, os_path_exists, json_load_file, try_except,
    except_Exception, bind, lift, external, get, ret, print, in_world, after, log.
  cbn [world self steps trace].
  destruct (fs_exists env (steps (world st)) (config_file (self st)));
    [|reflexivity].
  cbn [world self steps trace].
  destruct (fs_json_load env _ _) as [v|e]; [reflexivity|].
  destruct (is_Exception e); reflexivity.
Qed.

(** C3, as the specification words it, fails: with no config file the
    dict [load_config] returns is not the seven documented fields and
    nothing else; it also holds [auto_start]. *)
Lemma load_config_default_has_auto_start :
  fs_exists quiet_env 0 "discord_config.json" = false /\
  fst (load_config quiet_env fresh_state) <> Ret (PDict spec_default_config) /\
  exists d, fst (load_config quiet_env fresh_state) = Ret (PDict d) /\
            d !! "auto_start" = Some (PBool true) /\
            spec_default_config !! "auto_start" = None.
Proof.
  rewrite load_config_cases. cbn [quiet_env fs_exists fst].
  split; [reflexivity|]. split.
  - intros H.
    apply (f_equal (fun r => match r with
                             | Ret (PDict m) => m !! "auto_start"
                             | _ => None
                             end)) in H.
    vm_compute in H. discriminate.
  - exists default_config. repeat split; reflexivity.
Qed.

(** C3 (amended) — When the config file does not exist, or exists but
    opening or parsing it throws an [Exception], [load_config] returns
    the default dict without raising and without touching the object;
    that dict is the documented record (state "Playing a game", details
    "Enjoying Discord", large_image "discord", large_text "Discord Rich
    Presence", small_image and small_text [None], update_interval 15)
    together with one more field, [auto_start = True]. *)
Theorem load_config_falls_back_to_default env st :
  (fs_exists env (steps (world st)) (config_file (self st)) = false \/
   exists cls, fs_json_load env (S (steps (world st))) (config_file (self st))
               = Throws (Exception cls)) ->
  fst (load_config env st) = Ret (PDict default_config) /\
  self (snd (load_config env st)) = self st /\
  default_config = <["auto_start" := PBool true]> spec_default_config.
Proof.
  intros H. rewrite load_config_cases. cbv zeta.
  split; [|split; [|apply default_config_is_spec_plus_auto_start]].
  - destruct (fs_exists env _ _); [|reflexivity].
    destruct H as [H|[cls H]]; [discriminate|]. rewrite H. reflexivity.
  - destruct (fs_exists env _ _); [|reflexivity].
    destruct (fs_json_load env _ _) as [v|e]; [reflexivity|].
    destruct (is_Exception e); reflexivity.
Qed.

Lemma load_config_falls_back_to_default_witness :
  fst (load_config quiet_env fresh_state) = Ret (PDict default_config) /\
  self (snd (load_config quiet_env fresh_state)) = self fresh_state /\
  default_config = <["auto_start" := PBool true]> spec_default_config.
Proof.
  apply (load_config_falls_back_to_default quiet_env fresh_state).
  left. reflexivity.
Defined.

(** ** The connection flag *)

(** C4 — [update_status] called while [is_connected] is false returns
    [False]; the object is left as it was, no oracle is consulted (no
    external call is made) and the only new event is the printed
    diagnostic. *)
Theorem update_status_disconnected_fails_fast env a st :
  is_connected (self st) = false ->
  fst (update_status env a st) = Ret false /\
  self (snd (update_status env a st)) = self st /\
  steps (world (snd (update_status env a st))) = steps (world st) /\
  trace (world (snd (update_status env a st))) =
    trace (world st) ++ [EvPrint MsgNotConnected].
Proof.
  intros H. rewrite (update_status_not_connected env a st H).
  repeat split.
Qed.

Lemma update_status_disconnected_fails_fast_witness :
  fst (update_status quiet_env main_kwargs fresh_state) = Ret false /\
  self (snd (update_status quiet_env main_kwargs fresh_state)) = self fresh_state /\
  steps (world (snd (update_status quiet_env main_kwargs fresh_state))) = 0 /\
  trace (world (snd (update_status quiet_env main_kwargs fresh_state))) =
    [EvPrint MsgNotConnected].
Proof.
  apply (update_status_disconnected_fails_fast quiet_env main_kwargs fresh_state).
  reflexivity.
Defined.

(** C10 — [update_status] never assigns to an attribute of the manager:
    [client_id], [config_file], [rpc], [is_connected] and [config] are
    after the call what they were before it, whatever the arguments,
    the environment and the outcome (success, failure or an exception
    passing through).  In particular a failed send leaves [is_connected]
    true. *)
Theorem update_status_leaves_self_unchanged env a st :
  self (snd (update_status env a st)) = self st.
Proof.
  destruct (confined_update_status env any_exn a
              (fun n d => throws_within_any _) st) as (H & _).
  exact H.
Qed.

(** A send that fails with an [Exception] is reported as [False] and the
    manager stays connected. *)
Lemma update_status_failed_send env a st d h cls :
  is_connected (self st) = true ->
  rpc (self st) = Some h ->
  config (self st) = PDict d ->
  discord_update env (S (steps (world st)))
    (update_data_of d a (clock env (steps (world st)))) = Throws (Exception cls) ->
  fst (update_status env a st) = Ret false /\
  is_connected (self (snd (update_status env a st))) = true.
Proof.
  intros Hc Hr Hd Hup.
  rewrite (update_status_connected_dict env a st d h Hc Hr Hd). cbv zeta.
  rewrite Hup. split; [reflexivity | exact Hc].
Qed.

(** A close that returns leaves the manager disconnected. *)
Lemma disconnect_clean_close env st h :
  rpc (self st) = Some h ->
  is_connected (self st) = true ->
  discord_close env (steps (world st)) = Returns tt ->
  fst (disconnect env st) = Ret tt /\
  is_connected (self (snd (disconnect env st))) = false /\
  closes (world (snd (disconnect env st))) = closes (world st) + 1.
Proof.
  intros Hr Hc Hcl. rewrite disconnect_cases. cbv zeta.
  rewrite Hr, Hc, Hcl. repeat split. unfold closes. simpl.
  rewrite !count_events_app. simpl. lia.
Qed.

(** A close that throws an [Exception] is swallowed, and the assignment
    [self.is_connected = False] that follows it in the [try] is skipped. *)
Lemma disconnect_failed_close env st h cls :
  rpc (self st) = Some h ->
  is_connected (self st) = true ->
  discord_close env (steps (world st)) = Throws (Exception cls) ->
  fst (disconnect env st) = Ret tt /\
  self (snd (disconnect env st)) = self st /\
  closes (world (snd (disconnect env st))) = closes (world st) + 1.
Proof.
  intros Hr Hc Hcl. rewrite disconnect_cases. cbv zeta.
  rewrite Hr, Hc, Hcl. repeat split. unfold closes. simpl.
  rewrite !count_events_app. simpl. lia.
Qed.

(** On a manager that is not connected [disconnect] does nothing. *)
Lemma disconnect_noop env st :
  is_connected (self st) = false -> disconnect env st = (Ret tt, st).
Proof.
  intros Hc. rewrite disconnect_cases. cbv zeta. rewrite Hc.
  destruct (rpc (self st)); reflexivity.
Qed.

(** After a close that returned, a second [disconnect] does nothing. *)
Lemma disconnect_twice_after_clean_close env st h :
  rpc (self st) = Some h ->
  is_connected (self st) = true ->
  discord_close env (steps (world st)) = Returns tt ->
  disconnect env (snd (disconnect env st)) = (Ret tt, snd (disconnect env st)).
Proof.
  intros Hr Hc Hcl. apply disconnect_noop.
  apply (disconnect_clean_close env st h Hr Hc Hcl).
Qed.

(** C5 — the code at the failing input: on a connected manager whose
    [rpc.close()] throws, [disconnect] returns normally, having called
    close once and printed the error, and [is_connected] is still true. *)
Theorem disconnect_failed_close_stays_connected :
  fst (disconnect close_fails_env connected_state) = Ret tt /\
  trace (world (snd (disconnect close_fails_env connected_state))) =
    [EvRpcClose handle0;
     EvPrint (MsgErrorDisconnecting (Exception "BrokenPipeError"))] /\
  is_connected (self (snd (disconnect close_fails_env connected_state))) = true.
Proof. rewrite disconnect_cases. repeat split. Qed.

(** C6 — the code at the failing input: when the first [disconnect] hit
    a close error, the second [disconnect] calls [rpc.close()] again. *)
Theorem disconnect_twice_closes_twice :
  let st1 := snd (disconnect close_fails_env connected_state) in
  let st2 := snd (disconnect close_fails_env st1) in
  fst (disconnect close_fails_env st1) = Ret tt /\
  closes (world st1) = 1 /\
  closes (world st2) = 2.
Proof. cbv zeta. rewrite !disconnect_cases. repeat split. Qed.

(** ** The scheduler loop *)

Lemma confined_lift_raise {A} (ok : exn -> bool) div allowed e :
  ok e = true -> confined (A := A) ok div allowed (lift (raise e)).
Proof. intros H st. repeat split; auto. apply emitted_refl. Qed.

Lemma confined_time_sleep env ok div secs :
  (forall e, is_Exception e = true -> ok e = true) ->
  (forall n q, throws_within ok (sleep_outcome env n q)) ->
  confined ok div loop_event (lift (time_sleep env secs)).
Proof.
  intros Hok Hsl. unfold time_sleep.
  destruct (sleep_seconds secs) as [q|]; [destruct (Qle_bool 0 q)|];
    try (apply confined_lift_raise, Hok; reflexivity).
  apply confined_external; [reflexivity|]. intros n.
  specialize (Hsl n q). destruct (sleep_outcome env n q) as [|e]; [exact I|].
  simpl in Hsl. destruct (is_Exception e) eqn:E; auto.
Qed.

Lemma confined_duration_elapsed env ok div duration start_time :
  confined ok div loop_event (lift (duration_elapsed env duration start_time)).
Proof.
  intros st. apply post_lift. unfold duration_elapsed.
  destruct duration as [d|]; [destruct (d =? 0)%Z|];
    try (apply post_ret; repeat split; apply emitted_refl).
  apply post_bind, post_external. intros w' _ Htr. apply post_ret.
  repeat split. eapply emitted_one; [|exact Htr]. reflexivity.
Qed.

Lemma update_event_loop_event ev : update_event ev = true -> loop_event ev = true.
Proof. unfold loop_event. intros ->. reflexivity. Qed.

Lemma throws_within_ok {A} (ok : exn -> bool) (o : outcome A) :
  (forall e, is_Exception e = true -> ok e = true) ->
  throws_within ok o ->
  match o with Returns _ => True | Throws e => ok e = true end.
Proof.
  intros Hok H. destruct o as [|e]; [exact I|]. simpl in H.
  destruct (is_Exception e) eqn:E; auto.
Qed.

Lemma confined_update_status_in_loop env ok a :
  (forall n d, throws_within ok (discord_update env n d)) ->
  confined ok true loop_event (update_status env a).
Proof.
  intros Hup.
  apply (confined_weaken ok ok false true update_event loop_event); auto.
  - apply update_event_loop_event.
  - apply confined_update_status, Hup.
Qed.

Lemma confined_scheduler_loop env ok fuel duration start_time update_interval :
  (forall e, is_Exception e = true -> ok e = true) ->
  (forall n d, throws_within ok (discord_update env n d)) ->
  (forall n q, throws_within ok (sleep_outcome env n q)) ->
  confined ok true loop_event
    (scheduler_loop env fuel duration start_time update_interval).
Proof.
  intros Hok Hup Hsl. induction fuel as [|fuel IH]; simpl.
  - apply confined_out_of_fuel.
  - apply confined_bind; [apply confined_duration_elapsed|].
    intros [|]; [apply confined_ret|].
    apply confined_bind; [apply confined_time_sleep; assumption|]. intros _.
    apply confined_bind; [apply confined_update_status_in_loop, Hup|]. intros _.
    exact IH.
Qed.

Lemma confined_banner ok div update_interval duration :
  confined ok div loop_event (lift (banner update_interval duration)).
Proof.
  intros st. apply post_lift. unfold banner.
  repeat (apply post_bind, post_print).
  apply post_print. repeat split.
  exists [EvPrint MsgBannerRule; EvPrint MsgBannerRunning;
          EvPrint (MsgBannerInterval update_interval);
          EvPrint (MsgBannerDuration duration);
          EvPrint MsgBannerCtrlC; EvPrint MsgBannerRule].
  split; [|reflexivity]. simpl. rewrite <- !app_assoc. reflexivity.
Qed.

Lemma confined_run_body env ok fuel duration start_time update_interval :
  (forall e, is_Exception e = true -> ok e = true) ->
  (forall n d, throws_within ok (discord_update env n d)) ->
  (forall n q, throws_within ok (sleep_outcome env n q)) ->
  confined ok true loop_event
    (run_body env fuel duration start_time update_interval).
Proof.
  intros Hok Hup Hsl. unfold run_body.
  apply confined_bind; [apply confined_banner|]. intros _.
  apply confined_bind; [apply confined_update_status_in_loop, Hup|]. intros _.
  apply confined_scheduler_loop; assumption.
Qed.

(** The [try] of [run_continuous] with its two [except] clauses: the
    manager is untouched, nothing is closed, and only an exception that
    is neither an [Exception] nor a [KeyboardInterrupt] passes. *)
Lemma confined_guarded_body env ok fuel duration start_time update_interval :
  (forall n d, passes ok (discord_update env n d)) ->
  (forall n q, passes ok (sleep_outcome env n q)) ->
  confined ok true loop_event
    (try_except (run_body env fuel duration start_time update_interval)
                run_handlers).
Proof.
  intros Hup Hsl.
  set (ok1 := fun e => match e with SystemExit _ => ok e | _ => true end).
  assert (Hin : forall A (o : outcome A), passes ok o -> throws_within ok1 o).
  { intros A [a|[cls| |c]] H; simpl in *; auto. }
  apply confined_try_except with (ok1 := ok1).
  - apply confined_run_body.
    + intros [cls| |c] H; simpl in *; auto; discriminate.
    + intros n d. apply Hin, Hup.
    + intros n q. apply Hin, Hsl.
  - intros [cls| |c] He; simpl in *; auto;
      apply confined_print; reflexivity.
Qed.

Lemma passes_any {A} (o : outcome A) : passes any_exn o.
Proof. destruct o as [a|[cls| |c]]; simpl; auto. Qed.

Lemma emitted_closes allowed w w' :
  (forall ev, allowed ev = true -> is_close ev = false) ->
  emitted allowed w w' -> closes w' = closes w.
Proof. intros H E. unfold closes. eapply emitted_count; eauto. Qed.

Lemma loop_event_not_close ev : loop_event ev = true -> is_close ev = false.
Proof. destruct ev; simpl; auto; discriminate. Qed.

Lemma connect_event_not_close ev : connect_event ev = true -> is_close ev = false.
Proof. destruct ev; simpl; auto; discriminate. Qed.

Lemma connect_event_not_update ev : connect_event ev = true -> is_update ev = false.
Proof. destruct ev; simpl; auto; discriminate. Qed.

Lemma connect_event_not_sleep ev : connect_event ev = true -> is_sleep ev = false.
Proof. destruct ev; simpl; auto; discriminate. Qed.

(** What [connect] leaves behind, by its return value. *)
Lemma connect_returns env st b st1 :
  connect env st = (Ret b, st1) ->
  is_connected (self st1) = b /\
  (b = true -> exists h, rpc (self st1) = Some h) /\
  config (self st1) = config (self st) /\
  emitted connect_event (world st) (world st1).
Proof.
  rewrite connect_cases. cbv zeta.
  destruct (discord_new env _ _) as [[]|e];
    [destruct (discord_connect env _) as [[]|e]|];
    try destruct (is_Exception e); intros H; inversion H; subst; clear H;
    cbn [self world is_connected rpc config]; (repeat split; eauto; try discriminate);
    unfold log, after; cbn [trace steps];
    eexists; (split; [rewrite <- ?app_assoc; reflexivity | reflexivity]).
Qed.

Lemma config_get_dict key dflt st d :
  config (self st) = PDict d ->
  config_get key dflt st = (Ret (default dflt (d !! key)), st).
Proof. intros H. unfold config_get, bind, get. rewrite H. reflexivity. Qed.

(** Once [connect] has succeeded on a dict config, [run_continuous] is
    its guarded [try] followed by the [finally]. *)
Lemma run_continuous_connected env fuel duration st st1 d :
  connect env st = (Ret true, st1) ->
  config (self st) = PDict d ->
  run_continuous env fuel duration st =
    try_finally
      (try_except
         (run_body env fuel duration (clock env (steps (world st1)))
            (default (PInt 15) (d !! "update_interval")))
         run_handlers)
      (disconnect env)
      (in_world st1 (after EvTime (world st1))).
Proof.
  intros Hc Hd. unfold run_continuous, bind at 1. rewrite Hc.
  cbn [negb]. unfold bind at 1, lift at 1, time_time, external.
  cbn [fst snd]. unfold bind at 1.
  destruct (connect_returns env st true st1 Hc) as (_ & _ & Hcfg & _).
  erewrite config_get_dict by (cbn [self]; rewrite Hcfg; exact Hd).
  reflexivity.
Qed.

Lemma run_continuous_not_connected env fuel duration st st1 :
  connect env st = (Ret false, st1) ->
  run_continuous env fuel duration st = (Ret tt, st1).
Proof.
  intros Hc. unfold run_continuous, bind at 1. rewrite Hc. reflexivity.
Qed.

(** On a connected manager [disconnect] calls [rpc.close()] once,
    however that call ends. *)
Lemma disconnect_connected_closes env st h :
  rpc (self st) = Some h ->
  is_connected (self st) = true ->
  closes (world (snd (disconnect env st))) = closes (world st) + 1 /\
  fst (disconnect env st) <> OutOfFuel.
Proof.
  intros Hr Hc. rewrite disconnect_cases. cbv zeta. rewrite Hr, Hc.
  destruct (discord_close env _) as [[]|e]; [|destruct (is_Exception e)];
    unfold closes; simpl; rewrite ?count_events_app; simpl;
    (split; [lia | discriminate]).
Qed.

(** A failed [connect] ends by printing why. *)
Lemma connect_false_prints env st st1 :
  connect env st = (Ret false, st1) ->
  exists e tr, trace (world st1) = tr ++ [EvPrint (MsgConnectFailed e)].
Proof.
  rewrite connect_cases. cbv zeta.
  destruct (discord_new env _ _) as [[]|e];
    [destruct (discord_connect env _) as [[]|e]|];
    try destruct (is_Exception e); intros H; inversion H; subst; clear H;
    eexists _, _; reflexivity.
Qed.

(** ** [run_continuous] *)

(** C8 — After a successful [connect], every run of [run_continuous]
    that reaches its [try] (the config is a dict, so reading
    [update_interval] does not fail) and ends, in whatever way (the
    duration elapsed, Ctrl-C, an [Exception], or any other exception
    out of the loop or out of an update), has called [disconnect] once:
    the run contains exactly one [rpc.close()]. *)
Theorem run_continuous_disconnects_once env fuel duration st st1 :
  connect env st = (Ret true, st1) ->
  is_dict (config (self st)) = true ->
  fst (run_continuous env fuel duration st) <> OutOfFuel ->
  closes (world (snd (run_continuous env fuel duration st))) = closes (world st) + 1.
Proof.
  intros Hc Hd.
  destruct (config (self st)) as [| | | | | | |d] eqn:Hcfg; try discriminate.
  rewrite (run_continuous_connected env fuel duration st st1 d Hc Hcfg).
  destruct (connect_returns env st true st1 Hc) as (Hflag & Hrpc & _ & Hem).
  destruct (Hrpc eq_refl) as [h Hh].
  set (st2 := in_world st1 (after EvTime (world st1))).
  assert (Hcl2 : closes (world st2) = closes (world st)).
  { rewrite <- (emitted_closes _ _ _ connect_event_not_close Hem).
    unfold closes, st2. simpl. rewrite count_events_app. simpl. lia. }
  apply (post_try_finally _ _ st2
           (fun r st' => r <> OutOfFuel ->
                         closes (world st') = closes (world st) + 1)).
  eapply post_conseq.
  { apply (confined_guarded_body env any_exn); intros; apply passes_any. }
  intros r st3 (Hs & He & _).
  assert (Hcl3 : closes (world st3) = closes (world st)).
  { rewrite (emitted_closes _ _ _ loop_event_not_close He). exact Hcl2. }
  assert (Hfin : closes (world (snd (disconnect env st3))) = closes (world st) + 1
                 /\ fst (disconnect env st3) <> OutOfFuel).
  { rewrite <- Hcl3. apply (disconnect_connected_closes env st3 h); rewrite Hs; assumption. }
  destruct Hfin as [Hfin Hne].
  destruct r as [u|e|]; [| |congruence]; unfold post;
    destruct (fst (disconnect env st3)); intros; congruence.
Qed.

(** C7 — If the [connect] at the head of [run_continuous] fails, the
    call returns at once, for every fuel (the loop is not entered): it
    ends in the state [connect] left, whose last event is the printed
    reason of the failure and whose [is_connected] is false, and no
    update, no wait and no close has been added to the trace. *)
Theorem run_continuous_connect_failure env fuel duration st st1 :
  connect env st = (Ret false, st1) ->
  run_continuous env fuel duration st = (Ret tt, st1) /\
  is_connected (self st1) = false /\
  (exists e tr, trace (world st1) = tr ++ [EvPrint (MsgConnectFailed e)]) /\
  updates (world st1) = updates (world st) /\
  sleeps (world st1) = sleeps (world st) /\
  closes (world st1) = closes (world st).
Proof.
  intros Hc.
  destruct (connect_returns env st false st1 Hc) as (Hflag & _ & _ & Hem).
  split; [apply run_continuous_not_connected, Hc|].
  split; [exact Hflag|].
  split; [apply (connect_false_prints env st st1 Hc)|].
  unfold updates, sleeps, closes.
  repeat split; eapply emitted_count; eauto.
  - apply connect_event_not_update.
  - apply connect_event_not_sleep.
  - apply connect_event_not_close.
Qed.

Lemma run_continuous_connect_failure_witness :
  let st1 := snd (connect no_discord_env fresh_state) in
  run_continuous no_discord_env 5 (Some 60%Z) fresh_state = (Ret tt, st1) /\
  is_connected (self st1) = false /\
  (exists e tr, trace (world st1) = tr ++ [EvPrint (MsgConnectFailed e)]) /\
  updates (world st1) = updates (world fresh_state) /\
  sleeps (world st1) = sleeps (world fresh_state) /\
  closes (world st1) = closes (world fresh_state).
Proof.
  apply (run_continuous_connect_failure no_discord_env 5 (Some 60%Z) fresh_state).
  reflexivity.
Defined.

Lemma run_continuous_disconnects_once_witness :
  (fst (run_continuous quiet_env 5 (Some 3%Z) fresh_state) = Ret tt /\
   closes (world (snd (run_continuous quiet_env 5 (Some 3%Z) fresh_state))) = 1) /\
  (fst (run_continuous ctrl_c_env 5 None fresh_state) = Ret tt /\
   closes (world (snd (run_continuous ctrl_c_env 5 None fresh_state))) = 1) /\
  (fst (run_continuous update_exits_env 5 None fresh_state) = Raise (SystemExit 0) /\
   closes (world (snd (run_continuous update_exits_env 5 None fresh_state))) = 1).
Proof.
  split; [|split]; (split; [vm_compute; reflexivity|]).
  - apply (run_continuous_disconnects_once quiet_env 5 (Some 3%Z) fresh_state
             (snd (connect quiet_env fresh_state)));
      [reflexivity | reflexivity | vm_compute; discriminate].
  - apply (run_continuous_disconnects_once ctrl_c_env 5 None fresh_state
             (snd (connect ctrl_c_env fresh_state)));
      [reflexivity | reflexivity | vm_compute; discriminate].
  - apply (run_continuous_disconnects_once update_exits_env 5 None fresh_state
             (snd (connect update_exits_env fresh_state)));
      [reflexivity | reflexivity | vm_compute; discriminate].
Defined.

(** The three ways out of the loop, on concrete runs: the duration has
    elapsed after two updates; Ctrl-C during the second wait, after two
    updates; an exception that passes through the third update. *)
Example run_continuous_exit_paths :
  updates (world (snd (run_continuous quiet_env 5 (Some 3%Z) fresh_state))) = 2 /\
  sleeps (world (snd (run_continuous quiet_env 5 (Some 3%Z) fresh_state))) = 1 /\
  updates (world (snd (run_continuous ctrl_c_env 5 None fresh_state))) = 2 /\
  sleeps (world (snd (run_continuous ctrl_c_env 5 None fresh_state))) = 2 /\
  updates (world (snd (run_continuous update_exits_env 5 None fresh_state))) = 3 /\
  sleeps (world (snd (run_continuous update_exits_env 5 None fresh_state))) = 2.
Proof. vm_compute. repeat split. Qed.

(** ** A duration of zero *)


Lemma update_status_tame env a st d h :
  is_connected (self st) = true ->
  rpc (self st) = Some h ->
  config (self st) = PDict d ->
  (forall n data, tame (discord_update env n data)) ->
  exists b m data,
    update_status env a st =
      (Ret b, in_world st (log (EvPrint m)
                (after (EvRpcUpdate h data) (after EvTime (world st))))).
Proof.
  intros Hc Hr Hd Hup.
  rewrite (update_status_connected_dict env a st d h Hc Hr Hd). cbv zeta.
  specialize (Hup (S (steps (world st)))
                  (update_data_of d a (clock env (steps (world st))))).
  destruct (discord_update env _ _) as [[]|e]; simpl in Hup.
  - eexists _, _, _. reflexivity.
  - rewrite Hup. eexists _, _, _. reflexivity.
Qed.

Lemma bind_Ret {S A B} (m : M S A) (k : A -> M S B) s a s' :
  m s = (Ret a, s') -> bind m k s = k a s'.
Proof. intros H. unfold bind. rewrite H. reflexivity. Qed.

Lemma guarded_out_of_fuel {S A} (body : M S A) handlers final s s' :
  body s = (OutOfFuel, s') ->
  try_finally (try_except body handlers) final s = (OutOfFuel, s').
Proof. intros H. unfold try_finally, try_except. rewrite H. reflexivity. Qed.

(** One turn of the loop with a duration of 0, when the wait is not
    interrupted and the update does not throw past [update_status]. *)
Lemma scheduler_loop_zero_step env fuel start_time update_interval q st d h :
  sleep_seconds update_interval = Some q ->
  Qle_bool 0 q = true ->
  sleep_outcome env (steps (world st)) q = Returns tt ->
  (forall n data, tame (discord_update env n data)) ->
  is_connected (self st) = true ->
  rpc (self st) = Some h ->
  config (self st) = PDict d ->
  exists m data,
    scheduler_loop env (S fuel) (Some 0%Z) start_time update_interval st =
    scheduler_loop env fuel (Some 0%Z) start_time update_interval
      (in_world st (log (EvPrint m)
         (after (EvRpcUpdate h data) (after EvTime (after (EvSleep q) (world st)))))).
Proof.
  intros Hq Hle Hsl Hup Hc Hr Hd.
  set (st1 := in_world st (after (EvSleep q) (world st))).
  destruct (update_status_tame env no_kwargs st1 d h Hc Hr Hd Hup)
    as (b & m & data & E).
  exists m, data. cbn [scheduler_loop].
  rewrite (bind_Ret _ _ st false (in_world st (world st))) by reflexivity.
  rewrite (bind_Ret _ _ _ tt st1).
  - rewrite (bind_Ret _ _ _ _ _ E). reflexivity.
  - unfold time_sleep. rewrite Hq, Hle. unfold lift, external.
    cbn [world in_world]. rewrite Hsl. reflexivity.
Qed.

(** With a duration of 0, as long as no wait is interrupted and no
    update throws past [update_status], the loop goes on for as long as
    it has fuel: one wait and one update per turn, and no way out. *)
Lemma scheduler_loop_zero_duration_spins env fuel start_time update_interval q :
  sleep_seconds update_interval = Some q ->
  Qle_bool 0 q = true ->
  (forall n, sleep_outcome env n q = Returns tt) ->
  (forall n data, tame (discord_update env n data)) ->
  forall st d h,
    is_connected (self st) = true ->
    rpc (self st) = Some h ->
    config (self st) = PDict d ->
    let out := scheduler_loop env fuel (Some 0%Z) start_time update_interval st in
    fst out = OutOfFuel /\
    self (snd out) = self st /\
    updates (world (snd out)) = updates (world st) + fuel /\
    sleeps (world (snd out)) = sleeps (world st) + fuel /\
    closes (world (snd out)) = closes (world st).
Proof.
  intros Hq Hle Hsl Hup. induction fuel as [|fuel IH]; intros st d h Hc Hr Hd.
  - simpl. repeat split; lia.
  - destruct (scheduler_loop_zero_step env fuel start_time update_interval q
                st d h Hq Hle (Hsl _) Hup Hc Hr Hd) as (m & data & E).
    rewrite E. clear E.
    set (st2 := in_world st _).
    destruct (IH st2 d h Hc Hr Hd) as (R & S1 & U & Sl & Cl).
    cbv zeta in *. rewrite R, S1, U, Sl, Cl.
    unfold updates, sleeps, closes, st2. simpl.
    rewrite !count_events_app. simpl.
    repeat split; lia.
Qed.

(** C1 — the code at the failing input: with [duration = 0], after a
    successful connect in an environment where nothing fails, the run
    does not stop after the immediate update.  Whatever the fuel, it is
    still in the loop when the fuel runs out, having waited once and
    updated once per turn on top of the immediate update, and
    [disconnect] has not been called. *)
Theorem run_continuous_zero_duration_keeps_looping fuel :
  let out := run_continuous quiet_env fuel (Some 0%Z) fresh_state in
  fst out = OutOfFuel /\
  updates (world (snd out)) = S fuel /\
  sleeps (world (snd out)) = fuel /\
  closes (world (snd out)) = 0.
Proof.
  assert (Hc : connect quiet_env fresh_state =
               (Ret true, snd (connect quiet_env fresh_state))).
  { rewrite connect_cases. reflexivity. }
  rewrite (run_continuous_connected quiet_env fuel (Some 0%Z) fresh_state _
             default_config Hc eq_refl).
  set (st2 := in_world _ _).
  set (start_time := clock quiet_env _).
  set (interval := default (PInt 15) (default_config !! "update_interval")).
  set (st3 := snd (lift (banner interval (Some 0%Z)) st2)).
  destruct (update_status_tame quiet_env no_kwargs st3 default_config handle0
              eq_refl eq_refl eq_refl (fun _ _ => I)) as (b & m & data & E).
  set (st4 := in_world st3 _) in E.
  destruct (scheduler_loop_zero_duration_spins quiet_env fuel start_time
              interval 15 eq_refl eq_refl (fun _ => eq_refl) (fun _ _ => I)
              st4 default_config handle0 eq_refl eq_refl eq_refl)
    as (R & _ & U & Sl & Cl).
  cbv zeta in R, U, Sl, Cl.
  destruct (scheduler_loop quiet_env fuel (Some 0%Z) start_time interval st4)
    as [r st5] eqn:Eloop.
  cbn [fst snd] in R, U, Sl, Cl. subst r.
  rewrite (guarded_out_of_fuel _ _ _ st2 st5).
  - cbv zeta. cbn [fst snd]. rewrite U, Sl, Cl. repeat split.
  - unfold run_body.
    rewrite (bind_Ret _ _ st2 tt st3) by reflexivity.
    rewrite (bind_Ret _ _ _ _ _ E). exact Eloop.
Qed.

(** ** [main] *)

Lemma tame_passes {A} ok (o : outcome A) : tame o -> passes ok o.
Proof. destruct o as [a|[cls| |c]]; simpl; auto; discriminate. Qed.

Lemma tame_throws_within {A} ok (o : outcome A) : tame o -> throws_within ok o.
Proof. destruct o as [a|e]; simpl; auto. intros ->. reflexivity. Qed.

Lemma post_with_self {A} (obj : DiscordStatusManager) (m : M State A) (w : World) Q :
  post m {| self := obj; world := w |} (fun r st =>
    match r with
    | Ret a => Q (Ret (a, self st)) (world st)
    | Raise e => Q (Raise e) (world st)
    | OutOfFuel => Q OutOfFuel (world st)
    end) ->
  post (with_self obj m) w Q.
Proof.
  unfold post, with_self.
  destruct (m {| self := obj; world := w |}) as [[a|e|] st]; auto.
Qed.

Lemma connect_tame env st :
  (forall n c, tame (discord_new env n c)) ->
  (forall n, tame (discord_connect env n)) ->
  exists b st1, connect env st = (Ret b, st1).
Proof.
  intros Hn Hc. rewrite connect_cases. cbv zeta.
  specialize (Hn (steps (world st)) (client_id (self st))).
  specialize (Hc (S (steps (world st)))).
  destruct (discord_new env _ _) as [[]|e];
    [destruct (discord_connect env _) as [[]|e]|];
    simpl in Hn, Hc; try rewrite Hc; try rewrite Hn; eexists _, _; reflexivity.
Qed.

(** In a calm environment [run_continuous] on a dict config lets no
    exception out: it returns, or it is still looping. *)
Lemma run_continuous_calm env fuel duration st :
  calm env ->
  is_dict (config (self st)) = true ->
  ends_within no_exn true (fst (run_continuous env fuel duration st)).
Proof.
  intros Hcalm Hd.
  destruct (connect_tame env st (calm_new _ Hcalm) (calm_connect _ Hcalm))
    as (b & st1 & Hc).
  destruct b.
  - destruct (config (self st)) as [| | | | | | |d] eqn:Hcfg; try discriminate.
    rewrite (run_continuous_connected env fuel duration st st1 d Hc Hcfg).
    destruct (connect_returns env st true st1 Hc) as (Hflag & Hrpc & _ & _).
    destruct (Hrpc eq_refl) as [h Hh].
    apply (post_try_finally _ _ _ (fun r _ => ends_within no_exn true r)).
    eapply post_conseq.
    { apply (confined_guarded_body env no_exn).
      - intros n data. apply tame_passes, (calm_update _ Hcalm).
      - apply (calm_sleep _ Hcalm). }
    intros r st3 (Hs & _ & Hr). cbn [in_world self] in Hs.
    destruct r as [u|e|]; [|discriminate Hr|exact Hr].
    unfold post. rewrite disconnect_cases. cbv zeta. rewrite Hs, Hh, Hflag.
    pose proof (calm_close _ Hcalm (steps (world st3))) as Hcl.
    destruct (discord_close env _) as [[]|e]; simpl in Hcl; [exact I|].
    rewrite Hcl. exact I.
  - rewrite (run_continuous_not_connected env fuel duration st st1 Hc). exact I.
Qed.

Lemma resolve_client_id_returns env w :
  calm env -> exists cid w1, resolve_client_id env w = (Ret cid, w1).
Proof.
  intros Hcalm. unfold resolve_client_id.
  destruct (negb (truthy _)); [|eexists _, _; reflexivity].
  unfold bind at 1, os_path_exists, external.
  destruct (fs_exists env (steps w) "discord_config.json");
    [|eexists _, _; reflexivity].
  unfold try_except, bind, json_load_file, external. cbn [steps].
  pose proof (calm_load _ Hcalm (S (steps w)) "discord_config.json") as Hl.
  destruct (fs_json_load env _ _) as [v|e].
  - destruct v; try discriminate Hl. eexists _, _. reflexivity.
  - unfold except_Exception. rewrite Hl. eexists _, _. reflexivity.
Qed.

Lemma init_calm env cid cfile w :
  calm env ->
  exists m w', __init__ env cid cfile w = (Ret m, w') /\
               is_dict (config m) = true.
Proof.
  intros Hcalm. unfold __init__, bind, with_self.
  rewrite load_config_cases. cbv zeta. cbn [self world config_file].
  destruct (fs_exists env (steps w) cfile);
    [|eexists _, _; split; reflexivity].
  pose proof (calm_load _ Hcalm (S (steps w)) cfile) as Hl.
  destruct (fs_json_load env _ _) as [v|e].
  - eexists _, _. split; [reflexivity | exact Hl].
  - rewrite Hl. eexists _, _. split; reflexivity.
Qed.

Lemma confined_save_config env ok :
  (forall n p d, throws_within ok (fs_json_dump env n p d)) ->
  confined ok false any_event (save_config env).
Proof.
  intros Hd. unfold save_config.
  apply confined_bind; [apply confined_get|]. intros st.
  apply confined_try_except with (ok1 := fun e => is_Exception e || ok e).
  - apply confined_bind; [|intros _; apply confined_print; reflexivity].
    apply confined_external; [reflexivity|]. intros n.
    specialize (Hd n (config_file (self st)) (config (self st))).
    destruct (fs_json_dump env _ _ _); auto.
  - intros e He. unfold except_Exception.
    destruct (is_Exception e); simpl in He; auto.
    apply confined_print; reflexivity.
Qed.

(** How [main] ends in a calm environment, by the client id it found. *)
Lemma main_ends env fuel w cid w1 :
  calm env ->
  resolve_client_id env w = (Ret cid, w1) ->
  post (main env fuel) w (fun r _ =>
    if truthy cid then r = Ret tt \/ r = OutOfFuel
    else r = Raise (SystemExit 1)).
Proof.
  intros Hcalm E. unfold main. apply post_bind. unfold post at 1.
  rewrite E. cbn [fst snd].
  destruct (truthy cid) eqn:T; cbn [negb]; [|reflexivity].
  apply post_bind.
  destruct (init_calm env cid "discord_config.json" w1 Hcalm)
    as (m & w2 & Ei & Hdict).
  unfold post at 1. rewrite Ei. cbn [fst snd].
  apply post_bind, post_with_self, post_bind, post_get.
  apply post_bind, post_lift, post_external. intros w3 _ _. cbv beta iota.
  cbn [self config_file].
  apply post_bind.
  eapply post_conseq.
  { apply (confined_weaken no_exn no_exn false false any_event any_event
             (if negb (fs_exists env (steps w2) (config_file m))
              then save_config env else ret tt)); auto.
    destruct (negb _); [|apply confined_ret].
    apply confined_save_config. intros n p d.
    apply tame_throws_within, (calm_dump _ Hcalm). }
  intros r st4 (Hs4 & _ & Hr4). cbn [self] in Hs4.
  destruct r as [u|e|]; [|discriminate Hr4|discriminate Hr4].
  apply post_bind.
  destruct (connect_tame env st4 (calm_new _ Hcalm) (calm_connect _ Hcalm))
    as (b & st5 & Hc).
  destruct (connect_returns env st4 b st5 Hc) as (_ & _ & Hcfg & _).
  unfold post at 1. rewrite Hc. cbn [fst snd].
  destruct b; [|left; reflexivity].
  apply post_bind.
  eapply post_conseq.
  { apply (confined_update_status env no_exn main_kwargs). intros n d.
    apply tame_throws_within, (calm_update _ Hcalm). }
  intros r st6 (Hs6 & _ & Hr6).
  destruct r as [u'|e|]; [|discriminate Hr6|discriminate Hr6].
  assert (Hd6 : is_dict (config (self st6)) = true).
  { rewrite Hs6, Hcfg, Hs4. exact Hdict. }
  pose proof (run_continuous_calm env fuel None st6 Hcalm Hd6) as Hrun.
  unfold post.
  destruct (fst (run_continuous env fuel None st6)) as [[]|e|];
    simpl in Hrun; [left; reflexivity | discriminate | right; reflexivity].
Qed.

(** C9, as the specification words it, fails: with a client id in the
    environment and a Discord client that cannot be reached, [main]
    prints the failure, sends nothing, and returns; the exit status is
    0, not non-zero. *)
Lemma main_connect_failure_exits_zero :
  fst (resolve_client_id id_no_discord_env world0) = Ret (PStr "1234567890") /\
  (forall n, discord_connect id_no_discord_env n = Throws (Exception "DiscordNotFound")) /\
  fst (main id_no_discord_env 5 world0) = Ret tt /\
  count_events is_update (trace (snd (main id_no_discord_env 5 world0))) = 0 /\
  exit_code (fst (main id_no_discord_env 5 world0)) = Some 0%Z /\
  exit_code (fst (main id_no_discord_env 5 world0)) <> Some 1%Z.
Proof.
  split; [reflexivity|]. split; [reflexivity|].
  assert (E : fst (main id_no_discord_env 5 world0) = Ret tt)
    by (vm_compute; reflexivity).
  split; [exact E|]. split; [vm_compute; reflexivity|].
  rewrite E. split; [reflexivity | discriminate].
Qed.

(** C9 (amended) — In an environment where the config file, if it
    loads, holds a JSON object, where the file system and the Discord
    client fail with instances of [Exception] only, and where a wait is
    cut short by Ctrl-C or an [Exception] only: whenever [main] ends,
    its exit status is 1 if no client id was found in the environment
    variable or in the config file, and 0 otherwise, that is after
    Ctrl-C during the loop and also when the connection to Discord
    fails. *)
Theorem main_exit_code env fuel w :
  calm env ->
  fst (main env fuel w) <> OutOfFuel ->
  exists cid,
    fst (resolve_client_id env w) = Ret cid /\
    exit_code (fst (main env fuel w)) = Some (if truthy cid then 0 else 1)%Z.
Proof.
  intros Hcalm Hend.
  destruct (resolve_client_id_returns env w Hcalm) as (cid & w1 & E).
  exists cid. rewrite E. split; [reflexivity|].
  pose proof (main_ends env fuel w cid w1 Hcalm E) as H. unfold post in H.
  destruct (truthy cid).
  - destruct H as [H|H]; [rewrite H; reflexivity | contradiction].
  - rewrite H. reflexivity.
Qed.

Lemma main_exit_code_witness :
  (exists cid,
     fst (resolve_client_id id_ctrl_c_env world0) = Ret cid /\
     exit_code (fst (main id_ctrl_c_env 5 world0)) =
       Some (if truthy cid then 0 else 1)%Z) /\
  (exists cid,
     fst (resolve_client_id id_no_discord_env world0) = Ret cid /\
     exit_code (fst (main id_no_discord_env 5 world0)) =
       Some (if truthy cid then 0 else 1)%Z) /\
  (exists cid,
     fst (resolve_client_id quiet_env world0) = Ret cid /\
     exit_code (fst (main quiet_env 5 world0)) =
       Some (if truthy cid then 0 else 1)%Z).
Proof.
  split; [|split].
  - apply (main_exit_code id_ctrl_c_env 5 world0);
      [constructor; intros; simpl; auto | vm_compute; discriminate].
  - apply (main_exit_code id_no_discord_env 5 world0);
      [constructor; intros; simpl; auto | vm_compute; discriminate].
  - apply (main_exit_code quiet_env 5 world0);
      [constructor; intros; simpl; auto | vm_compute; discriminate].
Defined.

(** The three runs above, spelled out: Ctrl-C during the first wait ends
    [main] with status 0 after one close; an unreachable Discord ends it
    with status 0; no client id ends it with status 1. *)
Example main_exit_codes :
  exit_code (fst (main id_ctrl_c_env 5 world0)) = Some 0%Z /\
  count_events is_close (trace (snd (main id_ctrl_c_env 5 world0))) = 1 /\
  exit_code (fst (main id_no_discord_env 5 world0)) = Some 0%Z /\
  exit_code (fst (main quiet_env 5 world0)) = Some 1%Z.
Proof. vm_compute. repeat split. Qed.

(** * Further properties of [discord_status.py] *)

(** ** [connect], [disconnect], [save_config], [__init__] *)

(** X1 — [connect] reports what it leaves behind: it returns [True]
    exactly when it leaves [is_connected] true, and then [rpc] is the
    handle it has just built from [client_id]; it returns [False]
    exactly when it leaves the flag false.  No [Exception] escapes it.
    It keeps [client_id], [config_file] and [config], and all it does
    outside is build a [Presence], call its [connect] and print: an
    earlier handle is never closed. *)
Theorem connect_result_matches_flag env st :
  let out := connect env st in
  match fst out with
  | Ret b =>
      is_connected (self (snd out)) = b /\
      (b = true ->
       rpc (self (snd out)) =
         Some {| presence_client_id := client_id (self st);
                 presence_serial := steps (world st) |})
  | Raise e => is_Exception e = false
  | OutOfFuel => False
  end /\
  client_id (self (snd out)) = client_id (self st) /\
  config_file (self (snd out)) = config_file (self st) /\
  config (self (snd out)) = config (self st) /\
  emitted connect_event (world st) (world (snd out)).
Proof.
  cbv zeta. rewrite connect_cases. cbv zeta.
  destruct (discord_new env _ _) as [[]|e];
    [destruct (discord_connect env _) as [[]|e]|];
    try destruct (is_Exception e) eqn:E;
    cbn [fst snd self world is_connected rpc client_id config_file config];
    (repeat split; try discriminate; auto);
    unfold log, after; cbn [trace steps];
    eexists; (split; [rewrite <- ?app_assoc; reflexivity | reflexivity]).
Qed.

(** X2 — When [Presence(...)] is built but its [connect()] fails, the
    new handle stays in [self.rpc] with [is_connected] false, and a
    [disconnect] that follows does nothing at all: that handle is never
    closed. *)
Theorem disconnect_after_failed_connect env st cls :
  discord_new env (steps (world st)) (client_id (self st)) = Returns tt ->
  discord_connect env (S (steps (world st))) = Throws (Exception cls) ->
  let st1 := snd (connect env st) in
  fst (connect env st) = Ret false /\
  rpc (self st1) = Some {| presence_client_id := client_id (self st);
                           presence_serial := steps (world st) |} /\
  is_connected (self st1) = false /\
  disconnect env st1 = (Ret tt, st1).
Proof.
  intros Hn Hc. cbv zeta. rewrite connect_cases. cbv zeta. rewrite Hn, Hc.
  cbn [is_Exception fst snd]. split; [reflexivity|]. split; [reflexivity|].
  split; [reflexivity|]. apply disconnect_noop. reflexivity.
Qed.

Lemma disconnect_after_failed_connect_witness :
  let st1 := snd (connect no_discord_env fresh_state) in
  fst (connect no_discord_env fresh_state) = Ret false /\
  rpc (self st1) = Some handle0 /\
  is_connected (self st1) = false /\
  disconnect no_discord_env st1 = (Ret tt, st1).
Proof.
  apply (disconnect_after_failed_connect no_discord_env fresh_state "DiscordNotFound");
    reflexivity.
Defined.

(** X3 — After a [disconnect] whose close returned, the manager keeps
    the closed handle in [self.rpc] but refuses updates: [update_status]
    returns [False] and sends nothing. *)
Theorem update_status_after_disconnect env a st h :
  rpc (self st) = Some h ->
  is_connected (self st) = true ->
  discord_close env (steps (world st)) = Returns tt ->
  let st1 := snd (disconnect env st) in
  rpc (self st1) = Some h /\
  fst (update_status env a st1) = Ret false /\
  updates (world (snd (update_status env a st1))) = updates (world st).
Proof.
  intros Hr Hc Hcl. cbv zeta.
  assert (Hflag : is_connected (self (snd (disconnect env st))) = false)
    by apply (disconnect_clean_close env st h Hr Hc Hcl).
  rewrite (update_status_not_connected env a _ Hflag).
  rewrite disconnect_cases. cbv zeta. rewrite Hr, Hc, Hcl.
  cbn [fst snd self rpc world in_world].
  split; [reflexivity|]. split; [reflexivity|].
  unfold updates, log, after. cbn [trace].
  rewrite !count_events_app. simpl. lia.
Qed.

Lemma update_status_after_disconnect_witness :
  let st1 := snd (disconnect quiet_env connected_state) in
  rpc (self st1) = Some handle0 /\
  fst (update_status quiet_env main_kwargs st1) = Ret false /\
  updates (world (snd (update_status quiet_env main_kwargs st1))) =
    updates (world connected_state).
Proof.
  apply (update_status_after_disconnect quiet_env main_kwargs connected_state handle0);
    reflexivity.
Defined.

Lemma save_config_frame env st :
  let out := save_config env st in
  self (snd out) = self st /\
  (exists tail,
     trace (world (snd out)) =
       trace (world st) ++
       EvJsonDump (config_file (self st)) (config (self st)) :: tail /\
     forallb is_print tail = true) /\
  match fst out with
  | Ret _ => True
  | Raise e => is_Exception e = false
  | OutOfFuel => False
  end.
Proof.
  cbv zeta.
  unfold save_config, json_dump_file, try_except, except_Exception, bind, lift,
    external, get, print, log.
  cbn [world self steps trace fst snd].
  destruct (fs_json_dump env _ _ _) as [[]|e];
    [|destruct (is_Exception e) eqn:E];
    cbn [world self steps trace fst snd];
    (repeat split; auto);
    rewrite <- ?app_assoc; eexists; split; reflexivity.
Qed.

(** X4 — [save_config] makes one attempt to write [self.config] to
    [self.config_file] and prints the outcome; it never changes the
    manager and no [Exception] escapes it, so a caller cannot tell from
    it whether the file was written. *)
Theorem save_config_swallows_errors env st :
  let out := save_config env st in
  self (snd out) = self st /\
  (exists tail,
     trace (world (snd out)) =
       trace (world st) ++
       EvJsonDump (config_file (self st)) (config (self st)) :: tail /\
     forallb is_print tail = true) /\
  match fst out with
  | Ret _ => True
  | Raise e => is_Exception e = false
  | OutOfFuel => False
  end.
Proof. exact (save_config_frame env st). Qed.

(** X5 — A config file that loads is taken as it is: the manager that
    [DiscordStatusManager(client_id, config_file)] builds is
    disconnected, has no handle, and its [config] is the parsed value
    itself, whatever it is; no default is filled in and nothing checks
    that it is a JSON object. *)
Theorem init_keeps_loaded_config env cid cfile w v :
  fs_exists env (steps w) cfile = true ->
  fs_json_load env (S (steps w)) cfile = Returns v ->
  fst (__init__ env cid cfile w) =
    Ret {| client_id := cid; config_file := cfile; rpc := None;
           is_connected := false; config := v |}.
Proof.
  intros He Hl. unfold __init__, bind, with_self.
  rewrite load_config_cases. cbv zeta. cbn [self world config_file].
  rewrite He, Hl. reflexivity.
Qed.

Lemma init_keeps_loaded_config_witness :
  fst (__init__ array_file_env (PStr "1234567890") "discord_config.json" world0) =
    Ret {| client_id := PStr "1234567890"; config_file := "discord_config.json";
           rpc := None; is_connected := false; config := PList [] |}.
Proof.
  apply (init_keeps_loaded_config array_file_env); reflexivity.
Defined.

(** ** [update_status] beyond the merge *)

Lemma bind_Raise {S A B} (m : M S A) (k : A -> M S B) s e s' :
  m s = (Raise e, s') -> bind m k s = (Raise e, s').
Proof. intros H. unfold bind. rewrite H. reflexivity. Qed.

(** X6 — On a connected manager with a dict config, one call of
    [update_status] makes exactly one call of [rpc.update], whatever
    that call does: there is no retry.  The result is [True] exactly
    when the call returned and [False] exactly when it threw an
    [Exception]. *)
Theorem update_status_single_attempt env a st d h :
  is_connected (self st) = true ->
  rpc (self st) = Some h ->
  config (self st) = PDict d ->
  let answer := discord_update env (S (steps (world st)))
                  (update_data_of d a (clock env (steps (world st)))) in
  let out := update_status env a st in
  updates (world (snd out)) = updates (world st) + 1 /\
  steps (world (snd out)) = S (S (steps (world st))) /\
  (fst out = Ret true <-> exists u, answer = Returns u) /\
  (fst out = Ret false <-> exists cls, answer = Throws (Exception cls)).
Proof.
  intros Hc Hr Hd. cbv zeta.
  rewrite (update_status_connected_dict env a st d h Hc Hr Hd). cbv zeta.
  destruct (discord_update env _ _) as [[]|[cls| |c]];
    cbn [is_Exception fst snd world in_world log after steps trace];
    unfold updates; simpl; rewrite ?count_events_app; simpl;
    (split; [lia|]); (split; [reflexivity|]);
    split; split; intros H; try discriminate H; eauto;
    destruct H as [x H]; discriminate H.
Qed.

Lemma update_status_single_attempt_witness :
  let out := update_status refused_updates_env main_kwargs connected_state in
  updates (world (snd out)) = updates (world connected_state) + 1 /\
  steps (world (snd out)) = 2 /\
  (fst out = Ret true <->
   exists u, discord_update refused_updates_env 1
               (update_data_of default_config main_kwargs
                  (clock refused_updates_env 0)) = Returns u) /\
  (fst out = Ret false <->
   exists cls, discord_update refused_updates_env 1
                 (update_data_of default_config main_kwargs
                    (clock refused_updates_env 0)) = Throws (Exception cls)).
Proof.
  apply (update_status_single_attempt refused_updates_env main_kwargs
           connected_state default_config handle0); reflexivity.
Defined.

Lemma post_or_config_non_dict v key st :
  is_dict (config (self st)) = false ->
  post (or_config v key) st (fun r st' =>
    st' = st /\
    r = if truthy v then Ret v else Raise (Exception "AttributeError")).
Proof.
  intros Hnd. unfold post, or_config.
  destruct (truthy v); [split; reflexivity|].
  unfold config_get, bind, get, py_get.
  destruct (config (self st)); try discriminate; split; reflexivity.
Qed.

(** With a config that is not a dict, building the keyword arguments
    fails as soon as an argument that needs the config is falsy. *)
Lemma build_update_data_non_dict env a st :
  is_dict (config (self st)) = false ->
  merged_args_truthy a = false ->
  post (build_update_data env a) st (fun r st' =>
    r = Raise (Exception "AttributeError") /\
    self st' = self st /\
    emitted update_event (world st) (world st') /\
    updates (world st') = updates (world st)).
Proof.
  intros Hnd Hargs. unfold merged_args_truthy in Hargs. unfold build_update_data.
  assert (Hstop : forall st', self st' = self st ->
            emitted update_event (world st) (world st') ->
            updates (world st') = updates (world st) ->
            @Raise (gmap string pyval) (Exception "AttributeError")
              = Raise (Exception "AttributeError") /\
            self st' = self st /\
            emitted update_event (world st) (world st') /\
            updates (world st') = updates (world st)) by auto.
  assert (H0 : emitted update_event (world st) (world st)) by apply emitted_refl.
  apply post_bind. eapply post_conseq; [apply post_or_config_non_dict, Hnd|].
  intros r ? [-> ->]. destruct (truthy (state a)); [|apply Hstop; auto].
  apply post_bind. eapply post_conseq; [apply post_or_config_non_dict, Hnd|].
  intros r ? [-> ->]. destruct (truthy (details a)); [|apply Hstop; auto].
  apply post_bind. eapply post_conseq; [apply post_or_config_non_dict, Hnd|].
  intros r ? [-> ->]. destruct (truthy (large_image a)); [|apply Hstop; auto].
  apply post_bind. eapply post_conseq; [apply post_or_config_non_dict, Hnd|].
  intros r ? [-> ->]. destruct (truthy (large_text a)); [|apply Hstop; auto].
  apply post_bind, post_lift, post_external. intros w1 _ Htr. cbv beta iota.
  set (st1 := {| self := self st; world := w1 |}).
  assert (H1 : emitted update_event (world st) (world st1))
    by (eapply emitted_one; [|exact Htr]; reflexivity).
  assert (U1 : updates (world st1) = updates (world st)).
  { unfold updates. cbn [st1 world]. rewrite Htr, count_events_app. simpl. lia. }
  assert (Hnd1 : is_dict (config (self st1)) = false) by exact Hnd.
  apply post_bind. eapply post_conseq; [apply post_or_config_non_dict, Hnd1|].
  intros r ? [-> ->].
  destruct (truthy (small_image a)) eqn:Tsi; [|apply Hstop; auto].
  rewrite Tsi.
  apply post_bind, post_bind.
  eapply post_conseq; [apply post_or_config_non_dict, Hnd1|].
  intros r ? [-> ->]. rewrite Tsi. apply post_ret.
  apply post_bind. eapply post_conseq; [apply post_or_config_non_dict, Hnd1|].
  intros r ? [-> ->].
  destruct (truthy (small_text a)); [discriminate Hargs|apply Hstop; auto].
Qed.

(** X7 — On a connected manager whose config is not a dict (the config
    file held an array, a string, a number or null), a call of
    [update_status] that leaves out, or passes as falsy, any of [state],
    [details], [large_image], [large_text], [small_image], [small_text]
    returns [False] and sends nothing: reading the config raises
    [AttributeError], which the [except] turns into the result. *)
Theorem update_status_non_dict_config env a st h :
  is_connected (self st) = true ->
  rpc (self st) = Some h ->
  is_dict (config (self st)) = false ->
  merged_args_truthy a = false ->
  let out := update_status env a st in
  fst out = Ret false /\
  self (snd out) = self st /\
  updates (world (snd out)) = updates (world st) /\
  exists tr, trace (world (snd out)) =
             tr ++ [EvPrint (MsgErrorUpdating (Exception "AttributeError"))].
Proof.
  intros Hc Hr Hnd Hargs.
  change (post (update_status env a) st (fun r st' =>
           r = Ret false /\ self st' = self st /\
           updates (world st') = updates (world st) /\
           exists tr, trace (world st') =
             tr ++ [EvPrint (MsgErrorUpdating (Exception "AttributeError"))])).
  unfold update_status. apply post_bind, post_get. rewrite Hc, Hr.
  apply post_try_except, post_bind.
  eapply post_conseq; [apply (build_update_data_non_dict env a st Hnd Hargs)|].
  intros r st1 (-> & Hs & _ & Hu). cbv beta iota. cbn [except_Exception is_Exception].
  apply post_bind, post_lift, post_print, post_ret.
  cbn [self world]. split; [reflexivity|]. split; [exact Hs|].
  split; [|eexists; reflexivity].
  unfold updates, log. cbn [trace]. rewrite count_events_app. simpl.
  unfold updates in Hu. lia.
Qed.

Lemma update_status_non_dict_config_witness :
  let st := {| self := set_config (PList []) connected_manager; world := world0 |} in
  let out := update_status quiet_env no_kwargs st in
  fst out = Ret false /\
  self (snd out) = self st /\
  updates (world (snd out)) = updates (world st) /\
  exists tr, trace (world (snd out)) =
             tr ++ [EvPrint (MsgErrorUpdating (Exception "AttributeError"))].
Proof.
  apply (update_status_non_dict_config quiet_env no_kwargs _ handle0);
    reflexivity.
Defined.

(** ** [run_continuous] at its edges *)

Lemma grew_refl P w : grew P w w.
Proof. exists []. rewrite app_nil_r. split; [reflexivity | constructor]. Qed.

Lemma grew_trans P w1 w2 w3 : grew P w1 w2 -> grew P w2 w3 -> grew P w1 w3.
Proof.
  intros (tr1 & E1 & F1) (tr2 & E2 & F2). exists (tr1 ++ tr2).
  rewrite E2, E1, <- app_assoc. split; [reflexivity|].
  apply Forall_app. split; assumption.
Qed.

Lemma grew_emitted (P : event -> Prop) allowed w w' :
  (forall ev, allowed ev = true -> P ev) ->
  emitted allowed w w' -> grew P w w'.
Proof.
  intros HP (tr & E & F). exists tr. split; [exact E|].
  rewrite forallb_forall in F. apply Forall_forall.
  intros ev Hin. apply HP, F. apply list_elem_of_In, Hin.
Qed.

Lemma grew_after (P : event -> Prop) ev w : P ev -> grew P w (after ev w).
Proof. intros H. exists [ev]. split; [reflexivity|]. repeat constructor. exact H. Qed.

Lemma grew_log (P : event -> Prop) ev w : P ev -> grew P w (log ev w).
Proof. intros H. exists [ev]. split; [reflexivity|]. repeat constructor. exact H. Qed.

Lemma disconnect_emits env st :
  emitted disconnect_event (world st) (world (snd (disconnect env st))) /\
  fst (disconnect env st) <> OutOfFuel.
Proof.
  rewrite disconnect_cases. cbv zeta.
  destruct (rpc (self st)) as [h|]; [destruct (is_connected (self st))|];
    try (split; [apply emitted_refl | discriminate]).
  destruct (discord_close env _) as [[]|e]; [|destruct (is_Exception e)];
    cbn [fst snd world in_world]; (split; [|discriminate]);
    unfold log, after; cbn [trace steps];
    eexists; (split; [rewrite <- ?app_assoc; reflexivity | reflexivity]).
Qed.

Lemma disconnect_event_not_update ev : disconnect_event ev = true -> is_update ev = false.
Proof. destruct ev; simpl; auto; discriminate. Qed.

Lemma disconnect_event_not_sleep ev : disconnect_event ev = true -> is_sleep ev = false.
Proof. destruct ev; simpl; auto; discriminate. Qed.

Lemma quiet_event_not_update ev : quiet_event ev = true -> is_update ev = false.
Proof. destruct ev; simpl; auto; discriminate. Qed.

Lemma quiet_event_not_sleep ev : quiet_event ev = true -> is_sleep ev = false.
Proof. destruct ev; simpl; auto; discriminate. Qed.

Lemma quiet_event_not_close ev : quiet_event ev = true -> is_close ev = false.
Proof. destruct ev; simpl; auto; discriminate. Qed.

(** The counts around one update on a connected manager with a dict
    config. *)
Lemma update_status_counts env a st d h :
  is_connected (self st) = true ->
  rpc (self st) = Some h ->
  config (self st) = PDict d ->
  let out := update_status env a st in
  fst out <> OutOfFuel /\
  self (snd out) = self st /\
  steps (world (snd out)) = S (S (steps (world st))) /\
  updates (world (snd out)) = updates (world st) + 1 /\
  sleeps (world (snd out)) = sleeps (world st) /\
  closes (world (snd out)) = closes (world st).
Proof.
  intros Hc Hr Hd. cbv zeta.
  rewrite (update_status_connected_dict env a st d h Hc Hr Hd). cbv zeta.
  destruct (discord_update env _ _) as [[]|e]; [|destruct (is_Exception e)];
    unfold updates, sleeps, closes; simpl; rewrite ?count_events_app; simpl;
    (split; [discriminate|]); repeat split; lia.
Qed.

Lemma banner_quiet update_interval duration st :
  exists st', lift (banner update_interval duration) st = (Ret tt, st') /\
              self st' = self st /\
              steps (world st') = steps (world st) /\
              emitted quiet_event (world st) (world st').
Proof.
  eexists. split; [reflexivity|]. split; [reflexivity|]. split; [reflexivity|].
  exists [EvPrint MsgBannerRule; EvPrint MsgBannerRunning;
          EvPrint (MsgBannerInterval update_interval);
          EvPrint (MsgBannerDuration duration);
          EvPrint MsgBannerCtrlC; EvPrint MsgBannerRule].
  split; [|reflexivity]. simpl. rewrite <- !app_assoc. reflexivity.
Qed.

Lemma duration_elapsed_quiet env duration start_time st :
  exists stop st', lift (duration_elapsed env duration start_time) st = (Ret stop, st') /\
                   self st' = self st /\
                   emitted quiet_event (world st) (world st').
Proof.
  unfold duration_elapsed.
  destruct duration as [d|]; [destruct (d =? 0)%Z|];
    try (eexists _, _; split; [reflexivity|]; split; [reflexivity|];
         apply emitted_refl).
  eexists _, _. split; [reflexivity|]. split; [reflexivity|].
  exists [EvTime]. split; reflexivity.
Qed.

Lemma time_sleep_rejected env v st :
  sleep_rejects v = true ->
  exists cls, lift (time_sleep env v) st = (Raise (Exception cls), in_world st (world st)).
Proof.
  unfold sleep_rejects, time_sleep. intros H.
  destruct (sleep_seconds v) as [q|]; [|eexists; reflexivity].
  destruct (Qle_bool 0 q); [discriminate|]. eexists. reflexivity.
Qed.

(** X8 — When the config is not a dict, [run_continuous] connects and
    then fails on [self.config.get("update_interval", 15)], which is
    outside its [try]: [AttributeError] reaches the caller, nothing has
    been sent, [disconnect] has not run and the manager is left
    connected. *)
Theorem run_continuous_non_dict_config env fuel duration st st1 :
  connect env st = (Ret true, st1) ->
  is_dict (config (self st)) = false ->
  let out := run_continuous env fuel duration st in
  fst out = Raise (Exception "AttributeError") /\
  is_connected (self (snd out)) = true /\
  updates (world (snd out)) = updates (world st) /\
  closes (world (snd out)) = closes (world st).
Proof.
  intros Hc Hnd.
  destruct (connect_returns env st true st1 Hc) as (Hflag & _ & Hcfg & Hem).
  assert (E : run_continuous env fuel duration st =
              (Raise (Exception "AttributeError"),
               in_world st1 (after EvTime (world st1)))).
  { unfold run_continuous. rewrite (bind_Ret _ _ st true st1 Hc). cbn [negb].
    rewrite (bind_Ret _ _ st1 (clock env (steps (world st1)))
               (in_world st1 (after EvTime (world st1)))) by reflexivity.
    apply bind_Raise. unfold config_get, bind, get, py_get.
    cbn [in_world self]. rewrite Hcfg.
    destruct (config (self st)); try discriminate; reflexivity. }
  cbv zeta. rewrite E. cbn [fst snd in_world self world].
  split; [reflexivity|]. split; [exact Hflag|].
  unfold updates, closes, after. cbn [trace]. rewrite !count_events_app. simpl.
  rewrite (emitted_count is_update _ _ _ connect_event_not_update Hem).
  rewrite (emitted_count is_close _ _ _ connect_event_not_close Hem).
  split; lia.
Qed.

Lemma run_continuous_non_dict_config_witness :
  let out := run_continuous quiet_env 5 None array_config_state in
  fst out = Raise (Exception "AttributeError") /\
  is_connected (self (snd out)) = true /\
  updates (world (snd out)) = updates (world array_config_state) /\
  closes (world (snd out)) = closes (world array_config_state).
Proof.
  apply (run_continuous_non_dict_config quiet_env 5 None array_config_state
           (snd (connect quiet_env array_config_state))); reflexivity.
Defined.

Lemma quiet_counts w w' :
  emitted quiet_event w w' ->
  updates w' = updates w /\ sleeps w' = sleeps w /\ closes w' = closes w.
Proof.
  intros H. unfold updates, sleeps, closes. repeat split; eapply emitted_count; eauto.
  - apply quiet_event_not_update.
  - apply quiet_event_not_sleep.
  - apply quiet_event_not_close.
Qed.

Lemma print_counts m w :
  updates (log (EvPrint m) w) = updates w /\
  sleeps (log (EvPrint m) w) = sleeps w /\
  closes (log (EvPrint m) w) = closes w.
Proof.
  apply quiet_counts. exists [EvPrint m]. split; reflexivity.
Qed.

(** What the [finally] of [run_continuous] adds on a connected manager:
    one close, no update and no wait. *)
Lemma disconnect_counts env st h :
  rpc (self st) = Some h ->
  is_connected (self st) = true ->
  let out := disconnect env st in
  fst out <> OutOfFuel /\
  updates (world (snd out)) = updates (world st) /\
  sleeps (world (snd out)) = sleeps (world st) /\
  closes (world (snd out)) = closes (world st) + 1.
Proof.
  intros Hr Hc. cbv zeta.
  destruct (disconnect_connected_closes env st h Hr Hc) as [Hcl Hne].
  destruct (disconnect_emits env st) as [Hem _].
  split; [exact Hne|]. unfold updates, sleeps.
  rewrite (emitted_count is_update _ _ _ disconnect_event_not_update Hem).
  rewrite (emitted_count is_sleep _ _ _ disconnect_event_not_sleep Hem).
  auto.
Qed.

(** The [try] of a run whose [update_interval] [time.sleep] rejects:
    the immediate update, then the first wait raises and the handler
    prints it. *)
Lemma guarded_body_bad_interval env fuel duration start_time update_interval st d h :
  is_connected (self st) = true ->
  rpc (self st) = Some h ->
  config (self st) = PDict d ->
  sleep_rejects update_interval = true ->
  post (try_except (run_body env (S fuel) duration start_time update_interval)
                   run_handlers) st
    (fun r st' =>
       r <> OutOfFuel /\
       self st' = self st /\
       updates (world st') = updates (world st) + 1 /\
       sleeps (world st') = sleeps (world st) /\
       closes (world st') = closes (world st)).
Proof.
  intros Hc Hr Hd Hrej. apply post_try_except. unfold run_body.
  apply post_bind.
  destruct (banner_quiet update_interval duration st) as (st1 & E1 & S1 & _ & Q1).
  unfold post at 1. rewrite E1. cbn [fst snd].
  apply quiet_counts in Q1. destruct Q1 as (U1 & L1 & C1).
  apply post_bind.
  destruct (update_status_counts env no_kwargs st1 d h) as (Hne & S2 & _ & U2 & L2 & C2);
    try (rewrite S1; assumption).
  unfold post at 1.
  destruct (update_status env no_kwargs st1) as [r st2]. cbn [fst snd] in *.
  destruct r as [b|e|]; [| |contradiction].
  - cbn [scheduler_loop]. apply post_bind.
    destruct (duration_elapsed_quiet env duration start_time st2)
      as (stop & st3 & E3 & S3 & Q3).
    unfold post at 1. rewrite E3. cbn [fst snd].
    apply quiet_counts in Q3. destruct Q3 as (U3 & L3 & C3).
    destruct stop.
    + apply post_ret. split; [discriminate|].
      repeat split; congruence.
    + apply post_bind.
      destruct (time_sleep_rejected env update_interval st3 Hrej) as (cls & E4).
      unfold post at 1. rewrite E4. cbn [fst snd run_handlers].
      apply post_lift, post_print. cbn [in_world self world].
      destruct (print_counts (MsgErrorDuringExecution (Exception cls)) (world st3))
        as (U4 & L4 & C4).
      split; [discriminate|]. repeat split; congruence.
  - destruct e as [cls| |c]; cbn [run_handlers].
    + apply post_lift, post_print. cbn [self world].
      destruct (print_counts (MsgErrorDuringExecution (Exception cls)) (world st2))
        as (U4 & L4 & C4).
      split; [discriminate|]. repeat split; congruence.
    + apply post_lift, post_print. cbn [self world].
      destruct (print_counts MsgKeyboardInterrupt (world st2)) as (U4 & L4 & C4).
      split; [discriminate|]. repeat split; congruence.
    + split; [discriminate|]. repeat split; congruence.
Qed.

(** X9 — When the config's [update_interval] is something [time.sleep]
    rejects (null, a string, a list, an object, or a negative number),
    a run that connected does not loop: it sends the immediate update,
    the first wait raises [TypeError] or [ValueError], the [except]
    prints it and the [finally] disconnects.  The run ends with one
    update, no wait and one close, whatever the duration. *)
Theorem run_continuous_bad_interval env fuel duration st st1 d :
  connect env st = (Ret true, st1) ->
  config (self st) = PDict d ->
  sleep_rejects (default (PInt 15) (d !! "update_interval")) = true ->
  let out := run_continuous env (S fuel) duration st in
  fst out <> OutOfFuel /\
  updates (world (snd out)) = updates (world st) + 1 /\
  sleeps (world (snd out)) = sleeps (world st) /\
  closes (world (snd out)) = closes (world st) + 1.
Proof.
  intros Hc Hd Hrej. cbv zeta.
  rewrite (run_continuous_connected env (S fuel) duration st st1 d Hc Hd).
  destruct (connect_returns env st true st1 Hc) as (Hflag & Hrpc & Hcfg & Hem).
  destruct (Hrpc eq_refl) as [h Hh].
  set (st2 := in_world st1 (after EvTime (world st1))).
  assert (H2 : updates (world st2) = updates (world st) /\
               sleeps (world st2) = sleeps (world st) /\
               closes (world st2) = closes (world st)).
  { unfold updates, sleeps, closes, st2. simpl. rewrite !count_events_app. simpl.
    rewrite (emitted_count is_update _ _ _ connect_event_not_update Hem).
    rewrite (emitted_count is_sleep _ _ _ connect_event_not_sleep Hem).
    rewrite (emitted_count is_close _ _ _ connect_event_not_close Hem).
    repeat split; lia. }
  destruct H2 as (U2 & L2 & C2).
  apply (post_try_finally _ _ st2 (fun r st' =>
           r <> OutOfFuel /\
           updates (world st') = updates (world st) + 1 /\
           sleeps (world st') = sleeps (world st) /\
           closes (world st') = closes (world st) + 1)).
  eapply post_conseq.
  { apply (guarded_body_bad_interval env fuel duration _ _ st2 d h); auto.
    cbn [st2 in_world self]. rewrite Hcfg. exact Hd. }
  intros r st3 (Hne & S3 & U3 & L3 & C3).
  destruct (disconnect_counts env st3 h) as (Dne & DU & DL & DC);
    try (rewrite S3; assumption).
  unfold post.
  destruct r as [u|e|]; [| |contradiction];
    destruct (fst (disconnect env st3)); try contradiction;
    (split; [discriminate|]); repeat split; congruence.
Qed.

Lemma run_continuous_bad_interval_witness :
  let out := run_continuous quiet_env 5 None text_interval_state in
  fst out <> OutOfFuel /\
  updates (world (snd out)) = updates (world text_interval_state) + 1 /\
  sleeps (world (snd out)) = sleeps (world text_interval_state) /\
  closes (world (snd out)) = closes (world text_interval_state) + 1.
Proof.
  apply (run_continuous_bad_interval quiet_env 4 None text_interval_state
           (snd (connect quiet_env text_interval_state))
           (<["update_interval" := PStr "15"]> default_config));
    [reflexivity | reflexivity | vm_compute; reflexivity].
Defined.

(** ** Runs with a duration *)

Lemma connect_steps env st st1 :
  connect env st = (Ret true, st1) ->
  steps (world st1) = S (S (steps (world st))).
Proof.
  rewrite connect_cases. cbv zeta.
  destruct (discord_new env _ _) as [[]|e];
    [destruct (discord_connect env _) as [[]|e]|];
    try destruct (is_Exception e); intros H; inversion H; reflexivity.
Qed.

Lemma time_sleep_frame env v st :
  let out := lift (time_sleep env v) st in
  fst out <> OutOfFuel /\
  self (snd out) = self st /\
  steps (world st) <= steps (world (snd out)).
Proof.
  cbv zeta. unfold time_sleep.
  destruct (sleep_seconds v) as [q|]; [destruct (Qle_bool 0 q)|];
    try (split; [discriminate|]; split; [reflexivity|]; simpl; lia).
  unfold lift, external.
  destruct (sleep_outcome env _ q); simpl; (split; [discriminate|]);
    split; (reflexivity || lia).
Qed.

(** Once the clock reads past the duration, the head of the loop
    breaks; each turn takes at least one external call, so a loop with
    more fuel than calls are left before that moment ends. *)
Lemma scheduler_loop_ends env d start_time update_interval N dct h :
  d <> 0%Z ->
  (forall n, N <= n ->
     Qle_bool (clock env n - start_time) (inject_Z d) = false) ->
  forall fuel st,
    0 < fuel ->
    N < steps (world st) + fuel ->
    is_connected (self st) = true ->
    rpc (self st) = Some h ->
    config (self st) = PDict dct ->
    fst (scheduler_loop env fuel (Some d) start_time update_interval st) <> OutOfFuel.
Proof.
  intros Hd Hclock. induction fuel as [|fuel IH]; intros st Hpos HN Hc Hr Hcfg;
    [lia|].
  cbn [scheduler_loop].
  assert (E1 : lift (duration_elapsed env (Some d) start_time) st =
               (Ret (negb (Qle_bool (clock env (steps (world st)) - start_time)
                                    (inject_Z d))),
                in_world st (after EvTime (world st)))).
  { unfold duration_elapsed. destruct (d =? 0)%Z eqn:E; [|reflexivity].
    apply Z.eqb_eq in E. contradiction. }
  rewrite (bind_Ret _ _ _ _ _ E1).
  destruct (le_lt_dec N (steps (world st))) as [Hle|Hlt].
  { rewrite (Hclock _ Hle). discriminate. }
  destruct (negb _); [discriminate|].
  set (st1 := in_world st (after EvTime (world st))).
  destruct (time_sleep_frame env update_interval st1) as (Hne & Hs & Hst).
  unfold bind at 1.
  destruct (lift (time_sleep env update_interval) st1) as [r st2].
  cbn [fst snd] in Hne, Hs, Hst.
  destruct r as [u|e|]; [|discriminate|contradiction].
  destruct (update_status_counts env no_kwargs st2 dct h) as (Une & Us & Ust & _);
    try (rewrite Hs; assumption).
  unfold bind at 1.
  destruct (update_status env no_kwargs st2) as [r st3].
  cbn [fst snd] in Une, Us, Ust.
  destruct r as [b|e|]; [|discriminate|contradiction].
  cbn [st1 in_world world after steps] in Hst.
  apply IH; try (rewrite Us, Hs; assumption); lia.
Qed.

(** X10 — A run with a duration other than 0 ends: if from the [N]-th
    external call on the clock reads more than [duration] seconds past
    the start of the run, then, given more fuel than [N], the run that
    connected on a dict config leaves the loop, and it has closed the
    connection exactly once. *)
Theorem run_continuous_duration_ends env fuel d st st1 N :
  connect env st = (Ret true, st1) ->
  is_dict (config (self st)) = true ->
  d <> 0%Z ->
  (forall n, N <= n ->
     Qle_bool (clock env n - clock env (steps (world st1))) (inject_Z d) = false) ->
  N < fuel ->
  let out := run_continuous env fuel (Some d) st in
  fst out <> OutOfFuel /\
  closes (world (snd out)) = closes (world st) + 1.
Proof.
  intros Hc Hdict Hd Hclock HN.
  destruct (config (self st)) as [| | | | | | |dct] eqn:Hcfg; try discriminate.
  destruct (connect_returns env st true st1 Hc) as (Hflag & Hrpc & Hcfg1 & Hem).
  destruct (Hrpc eq_refl) as [h Hh].
  pose proof (connect_steps env st st1 Hc) as Hsteps.
  cbv zeta.
  rewrite (run_continuous_connected env fuel (Some d) st st1 dct Hc Hcfg).
  set (start_time := clock env (steps (world st1))).
  set (interval := default (PInt 15) (dct !! "update_interval")).
  set (st2 := in_world st1 (after EvTime (world st1))).
  assert (Hbody : fst (run_body env fuel (Some d) start_time interval st2) <> OutOfFuel).
  { unfold run_body.
    destruct (banner_quiet interval (Some d) st2) as (st3 & E3 & S3 & T3 & _).
    rewrite (bind_Ret _ _ _ _ _ E3).
    destruct (update_status_counts env no_kwargs st3 dct h) as (Une & Us & Ust & _);
      try (rewrite S3; cbn [st2 in_world self]; congruence).
    unfold bind at 1.
    destruct (update_status env no_kwargs st3) as [r st4].
    cbn [fst snd] in Une, Us, Ust.
    destruct r as [b|e|]; [|discriminate|contradiction].
    apply (scheduler_loop_ends env d start_time interval N dct h Hd Hclock);
      try (rewrite Us, S3; cbn [st2 in_world self]; congruence); lia. }
  assert (Hcl2 : closes (world st2) = closes (world st)).
  { rewrite <- (emitted_closes _ _ _ connect_event_not_close Hem).
    unfold closes, st2. simpl. rewrite count_events_app. simpl. lia. }
  apply (post_try_finally _ _ st2 (fun r st' =>
           r <> OutOfFuel /\ closes (world st') = closes (world st) + 1)).
  pose proof (confined_guarded_body env any_exn fuel (Some d) start_time interval
                (fun _ _ => passes_any _) (fun _ _ => passes_any _) st2) as Hg.
  unfold post in Hg |- *. destruct Hg as (Hs & He & _).
  assert (Hguard : fst (try_except (run_body env fuel (Some d) start_time interval)
                                   run_handlers st2) <> OutOfFuel).
  { unfold try_except.
    destruct (run_body env fuel (Some d) start_time interval st2) as [[u|e|] st3];
      cbn [fst] in Hbody |- *; [discriminate| |contradiction].
    destruct e; cbn [run_handlers]; discriminate. }
  destruct (try_except _ _ st2) as [r st3]. cbn [fst snd] in *.
  destruct (disconnect_counts env st3 h) as (Dne & _ & _ & DC);
    try (rewrite Hs; assumption).
  rewrite (emitted_closes _ _ _ loop_event_not_close He), Hcl2 in DC.
  destruct r as [u|e|]; [| |contradiction];
    destruct (fst (disconnect env st3)); try contradiction;
    (split; [discriminate | exact DC]).
Qed.

Lemma run_continuous_duration_ends_witness :
  let out := run_continuous quiet_env 7 (Some 3%Z) fresh_state in
  fst out <> OutOfFuel /\
  closes (world (snd out)) = closes (world fresh_state) + 1.
Proof.
  apply (run_continuous_duration_ends quiet_env 7 3 fresh_state
           (snd (connect quiet_env fresh_state)) 6);
    [reflexivity | reflexivity | lia | | lia].
  intros n Hn. unfold Qle_bool. simpl. apply Z.leb_gt. lia.
Defined.

(** ** What a run sends and how long it waits *)

Lemma quiet_event_tick d update_interval ev :
  quiet_event ev = true -> tick_event d update_interval ev.
Proof. destruct ev; simpl; auto; discriminate. Qed.

Lemma tick_event_run d update_interval ev :
  tick_event d update_interval ev -> run_event d update_interval ev.
Proof. destruct ev; simpl; auto. Qed.

Lemma grew_weaken (P P' : event -> Prop) w w' :
  (forall ev, P ev -> P' ev) -> grew P w w' -> grew P' w w'.
Proof.
  intros HP (tr & E & F). exists tr. split; [exact E|].
  eapply Forall_impl; eauto.
Qed.

Lemma time_sleep_grew env d update_interval st :
  let out := lift (time_sleep env update_interval) st in
  self (snd out) = self st /\
  grew (tick_event d update_interval) (world st) (world (snd out)).
Proof.
  cbv zeta. unfold time_sleep.
  destruct (sleep_seconds update_interval) as [q|] eqn:Hq;
    [destruct (Qle_bool 0 q)|];
    try (split; [reflexivity | apply grew_refl]).
  unfold lift, external.
  destruct (sleep_outcome env _ q); cbn [fst snd self world];
    (split; [reflexivity | apply (grew_after _ (EvSleep q)); exact Hq]).
Qed.

Lemma update_status_grew env update_interval st d h :
  is_connected (self st) = true ->
  rpc (self st) = Some h ->
  config (self st) = PDict d ->
  let out := update_status env no_kwargs st in
  self (snd out) = self st /\
  grew (tick_event d update_interval) (world st) (world (snd out)).
Proof.
  intros Hc Hr Hd. cbv zeta.
  rewrite (update_status_connected_dict env no_kwargs st d h Hc Hr Hd). cbv zeta.
  set (data := update_data_of d no_kwargs _).
  assert (G2 : grew (tick_event d update_interval) (world st)
                 (after (EvRpcUpdate h data) (after EvTime (world st)))).
  { eapply grew_trans; [apply (grew_after _ EvTime); exact I|].
    apply grew_after. eexists. reflexivity. }
  destruct (discord_update env _ _) as [[]|e]; [|destruct (is_Exception e)];
    cbn [fst snd in_world self world]; (split; [reflexivity|]); auto;
    (eapply grew_trans; [exact G2 | apply grew_log; exact I]).
Qed.

Lemma scheduler_loop_grew env fuel duration start_time update_interval d h :
  forall st,
    is_connected (self st) = true ->
    rpc (self st) = Some h ->
    config (self st) = PDict d ->
    post (scheduler_loop env fuel duration start_time update_interval) st
      (fun _ st' =>
         self st' = self st /\
         grew (tick_event d update_interval) (world st) (world st')).
Proof.
  induction fuel as [|fuel IH]; intros st Hc Hr Hd.
  - split; [reflexivity | apply grew_refl].
  - cbn [scheduler_loop]. apply post_bind.
    destruct (duration_elapsed_quiet env duration start_time st)
      as (stop & st1 & E1 & S1 & Q1).
    unfold post at 1. rewrite E1. cbn [fst snd].
    apply (grew_emitted (tick_event d update_interval)) in Q1;
      [|apply quiet_event_tick].
    destruct stop; [apply post_ret; split; [exact S1 | exact Q1]|].
    apply post_bind.
    destruct (time_sleep_grew env d update_interval st1) as (S2 & G2).
    unfold post at 1.
    destruct (lift (time_sleep env update_interval) st1) as [r st2].
    cbn [fst snd] in S2, G2 |- *.
    assert (G02 : grew (tick_event d update_interval) (world st) (world st2))
      by (eapply grew_trans; eauto).
    destruct r as [u|e|]; try (split; [congruence | exact G02]).
    apply post_bind.
    destruct (update_status_grew env update_interval st2 d h) as (S3 & G3);
      try (rewrite S2, S1; assumption).
    unfold post at 1.
    destruct (update_status env no_kwargs st2) as [r st3].
    cbn [fst snd] in S3, G3 |- *.
    assert (G03 : grew (tick_event d update_interval) (world st) (world st3))
      by (eapply grew_trans; eauto).
    destruct r as [b|e|]; try (split; [congruence | exact G03]).
    eapply post_conseq; [apply IH; rewrite S3, S2, S1; assumption|].
    intros r st4 (S4 & G4).
    split; [congruence | eapply grew_trans; eauto].
Qed.

Lemma run_body_grew env fuel duration start_time update_interval st d h :
  is_connected (self st) = true ->
  rpc (self st) = Some h ->
  config (self st) = PDict d ->
  post (run_body env fuel duration start_time update_interval) st
    (fun _ st' =>
       self st' = self st /\
       grew (tick_event d update_interval) (world st) (world st')).
Proof.
  intros Hc Hr Hd. unfold run_body. apply post_bind.
  destruct (banner_quiet update_interval duration st) as (st1 & E1 & S1 & _ & Q1).
  apply (grew_emitted (tick_event d update_interval)) in Q1;
    [|apply quiet_event_tick].
  unfold post at 1. rewrite E1. cbn [fst snd].
  apply post_bind.
  destruct (update_status_grew env update_interval st1 d h) as (S2 & G2);
    try (rewrite S1; assumption).
  unfold post at 1.
  destruct (update_status env no_kwargs st1) as [r st2].
  cbn [fst snd] in S2, G2 |- *.
  assert (G02 : grew (tick_event d update_interval) (world st) (world st2))
    by (eapply grew_trans; eauto).
  destruct r as [b|e|]; try (split; [congruence | exact G02]).
  eapply post_conseq;
    [apply (scheduler_loop_grew env fuel duration start_time update_interval d h);
     rewrite S2, S1; assumption|].
  intros r st3 (S3 & G3).
  split; [congruence | eapply grew_trans; eauto].
Qed.

(** Every event of a run that connected on the dict config [d]. *)
Lemma run_continuous_grew env fuel duration st st1 d :
  connect env st = (Ret true, st1) ->
  config (self st) = PDict d ->
  grew (run_event d (default (PInt 15) (d !! "update_interval")))
    (world st) (world (snd (run_continuous env fuel duration st))).
Proof.
  intros Hc Hd.
  set (interval := default (PInt 15) (d !! "update_interval")).
  rewrite (run_continuous_connected env fuel duration st st1 d Hc Hd).
  fold interval.
  destruct (connect_returns env st true st1 Hc) as (Hflag & Hrpc & Hcfg & Hem).
  destruct (Hrpc eq_refl) as [h Hh].
  set (st2 := in_world st1 (after EvTime (world st1))).
  assert (G2 : grew (run_event d interval) (world st) (world st2)).
  { eapply grew_trans.
    - eapply grew_emitted; [|exact Hem].
      intros ev; destruct ev; simpl; auto; discriminate.
    - apply (grew_after _ EvTime). exact I. }
  assert (Hfin : forall A (r : result A) st5,
            grew (run_event d interval) (world st) (world st5) ->
            post (disconnect env) st5 (fun rf st6 =>
              match rf with
              | Ret _ => grew (run_event d interval) (world st) (world st6)
              | Raise _ => grew (run_event d interval) (world st) (world st6)
              | OutOfFuel => grew (run_event d interval) (world st) (world st6)
              end)).
  { intros A r st5 G5. unfold post.
    destruct (disconnect_emits env st5) as [Hd5 _].
    assert (grew (run_event d interval) (world st) (world (snd (disconnect env st5)))).
    { eapply grew_trans; [exact G5|]. eapply grew_emitted; [|exact Hd5].
      intros ev; destruct ev; simpl; auto; discriminate. }
    destruct (fst (disconnect env st5)); assumption. }
  apply (post_try_finally _ _ st2 (fun _ st' =>
           grew (run_event d interval) (world st) (world st'))).
  apply post_try_except.
  eapply post_conseq.
  { apply (run_body_grew env fuel duration _ interval st2 d h); auto.
    cbn [st2 in_world self]. rewrite Hcfg. exact Hd. }
  intros r st3 (S3 & G3).
  assert (G03 : grew (run_event d interval) (world st) (world st3)).
  { eapply grew_trans; [exact G2|]. eapply grew_weaken; [apply tick_event_run|].
    exact G3. }
  destruct r as [u|e|]; [apply (Hfin unit (Ret tt)), G03| |exact G03].
  destruct e as [cls| |c]; cbn [run_handlers];
    try (apply post_lift, post_print; cbn [self world];
         apply (Hfin unit (Ret tt));
         eapply grew_trans; [exact G03 | apply grew_log; exact I]).
  apply (Hfin unit (Ret tt)), G03.
Qed.

(** X11 — Every wait of a run lasts what the config gave for
    [update_interval] when the run started, and 15 seconds when the
    config has no such key. *)
Theorem run_continuous_waits_update_interval env fuel duration st st1 d :
  connect env st = (Ret true, st1) ->
  config (self st) = PDict d ->
  exists tr,
    trace (world (snd (run_continuous env fuel duration st))) = trace (world st) ++ tr /\
    (forall q, In (EvSleep q) tr ->
       sleep_seconds (default (PInt 15) (d !! "update_interval")) = Some q) /\
    (d !! "update_interval" = None ->
     forall q, In (EvSleep q) tr -> q = 15%Q).
Proof.
  intros Hc Hd.
  destruct (run_continuous_grew env fuel duration st st1 d Hc Hd) as (tr & E & F).
  exists tr. split; [exact E|].
  assert (H : forall q, In (EvSleep q) tr ->
            sleep_seconds (default (PInt 15) (d !! "update_interval")) = Some q).
  { intros q Hin. rewrite Forall_forall in F.
    apply (F (EvSleep q)). apply list_elem_of_In, Hin. }
  split; [exact H|]. intros Hnone q Hin. specialize (H q Hin).
  rewrite Hnone in H. simpl in H. injection H as <-. reflexivity.
Qed.

Lemma run_continuous_waits_update_interval_witness :
  exists tr,
    trace (world (snd (run_continuous quiet_env 3 None sparse_config_state))) =
      trace (world sparse_config_state) ++ tr /\
    (forall q, In (EvSleep q) tr ->
       sleep_seconds (default (PInt 15)
         ((<["state" := PStr "Idle"]> ∅ : gmap string pyval) !! "update_interval"))
       = Some q) /\
    ((<["state" := PStr "Idle"]> ∅ : gmap string pyval) !! "update_interval" = None ->
     forall q, In (EvSleep q) tr -> q = 15%Q).
Proof.
  apply (run_continuous_waits_update_interval quiet_env 3 None sparse_config_state
           (snd (connect quiet_env sparse_config_state))); reflexivity.
Defined.

(** X12 — Every update a run sends is built from the config alone: its
    [state], [details], [large_image] and [large_text] are the config's
    values ([None] where the config has none) and it carries no
    [party_id], [party_size] or [buttons].  What an earlier call of
    [update_status] passed, as [main] does before it starts the run, is
    replaced by the first update of the run. *)
Theorem run_continuous_sends_config_only env fuel duration st st1 d :
  connect env st = (Ret true, st1) ->
  config (self st) = PDict d ->
  exists tr,
    trace (world (snd (run_continuous env fuel duration st))) = trace (world st) ++ tr /\
    forall h data, In (EvRpcUpdate h data) tr ->
      (forall f, In f ["state"; "details"; "large_image"; "large_text"] ->
         data !! f = Some (default PNone (d !! f))) /\
      data !! "party_id" = None /\
      data !! "party_size" = None /\
      data !! "buttons" = None.
Proof.
  intros Hc Hd.
  destruct (run_continuous_grew env fuel duration st st1 d Hc Hd) as (tr & E & F).
  exists tr. split; [exact E|]. intros h data Hin.
  rewrite Forall_forall in F.
  specialize (F (EvRpcUpdate h data) (proj2 (list_elem_of_In _ _) Hin)).
  destruct F as [now ->].
  split; [|split; [|split]].
  - intros f Hf.
    rewrite (update_data_of_required d no_kwargs now f PNone); [reflexivity|].
    simpl in Hf |- *. intuition (subst; auto).
  - rewrite (update_data_of_extra d no_kwargs now "party_id" PNone);
      [reflexivity | simpl; auto].
  - rewrite (update_data_of_extra d no_kwargs now "party_size" PNone);
      [reflexivity | simpl; auto].
  - rewrite (update_data_of_extra d no_kwargs now "buttons" PNone);
      [reflexivity | simpl; auto].
Qed.

Lemma run_continuous_sends_config_only_witness :
  exists tr,
    trace (world (snd (run_continuous quiet_env 3 None fresh_state))) =
      trace (world fresh_state) ++ tr /\
    forall h data, In (EvRpcUpdate h data) tr ->
      (forall f, In f ["state"; "details"; "large_image"; "large_text"] ->
         data !! f = Some (default PNone (default_config !! f))) /\
      data !! "party_id" = None /\
      data !! "party_size" = None /\
      data !! "buttons" = None.
Proof.
  apply (run_continuous_sends_config_only quiet_env 3 None fresh_state
           (snd (connect quiet_env fresh_state))); reflexivity.
Defined.



(** ** Finding the client id *)

(** X14 — A non-empty [DISCORD_CLIENT_ID] in the environment is the
    client id, and then [main] does not look at the config file for it:
    no external call is made. *)
Theorem resolve_client_id_prefers_environment env w s :
  environ env "DISCORD_CLIENT_ID" = Some s ->
  s <> "" ->
  resolve_client_id env w = (Ret (PStr s), w).
Proof.
  intros He Hs. unfold resolve_client_id. rewrite He. cbn [truthy].
  destruct (String.eqb_spec s ""); [contradiction | reflexivity].
Qed.

Lemma resolve_client_id_prefers_environment_witness :
  resolve_client_id id_quiet_env world0 = (Ret (PStr "1234567890"), world0).
Proof.
  apply (resolve_client_id_prefers_environment id_quiet_env world0 "1234567890");
    [reflexivity | discriminate].
Defined.

(** X15 — When the environment variable is unset or empty and
    [discord_config.json] exists and loads, the client id is the value
    of its [client_id] key, of whatever JSON type, and [None] when the
    key is missing or the file does not hold an object. *)
Theorem resolve_client_id_from_config env w v :
  environ env "DISCORD_CLIENT_ID" = None \/
  environ env "DISCORD_CLIENT_ID" = Some "" ->
  fs_exists env (steps w) "discord_config.json" = true ->
  fs_json_load env (S (steps w)) "discord_config.json" = Returns v ->
  fst (resolve_client_id env w) = Ret (config_client_id v).
Proof.
  intros He Hex Hl. unfold resolve_client_id.
  assert (Hf : negb (truthy match environ env "DISCORD_CLIENT_ID" with
                            | Some s => PStr s
                            | None => PNone
                            end) = true)
    by (destruct He as [-> | ->]; reflexivity).
  rewrite Hf.
  unfold bind at 1, os_path_exists, external. rewrite Hex.
  unfold try_except, bind, json_load_file, external. cbn [steps].
  rewrite Hl. destruct v; reflexivity.
Qed.

Lemma resolve_client_id_from_config_witness :
  fst (resolve_client_id id_in_file_env world0) =
    Ret (config_client_id
           (PDict (<["client_id" := PInt 1234567890]> default_config))).
Proof.
  apply (resolve_client_id_from_config id_in_file_env world0
           (PDict (<["client_id" := PInt 1234567890]> default_config)));
    [left; reflexivity | reflexivity | reflexivity].
Defined.

Lemma resolve_client_id_emits env w :
  post (resolve_client_id env) w (fun r w' =>
    emitted config_file_event w w' /\
    match r with
    | Ret _ => True
    | Raise e => is_Exception e = false
    | OutOfFuel => False
    end).
Proof.
  unfold resolve_client_id.
  destruct (negb (truthy _)); [|split; [apply emitted_refl | exact I]].
  apply post_bind, post_external. intros w1 Hs1 Ht1. cbv beta iota.
  assert (H1 : emitted config_file_event w w1)
    by (eapply emitted_one; [|exact Ht1]; reflexivity).
  destruct (fs_exists env (steps w) "discord_config.json");
    [|apply post_ret; split; [exact H1 | exact I]].
  apply post_try_except, post_bind, post_external. intros w2 Hs2 Ht2.
  assert (H2 : emitted config_file_event w w2).
  { eapply emitted_trans; [exact H1|]. eapply emitted_one; [|exact Ht2]. reflexivity. }
  destruct (fs_json_load env (steps w1) "discord_config.json") as [v|e].
  - destruct v; cbn [py_get];
      first [apply post_ret; split; [exact H2 | exact I]
            | apply post_raise; cbn [except_Exception is_Exception];
              apply post_ret; split; [exact H2 | exact I]].
  - unfold except_Exception. destruct (is_Exception e) eqn:E.
    + apply post_ret. split; [exact H2 | exact I].
    + split; [exact H2 | reflexivity].
Qed.


(** X17 — Without a client id [main] stops before it builds the
    manager: it only prints the instructions and raises
    [SystemExit(1)]; no file is read or written and Discord is not
    contacted after the search for the id. *)
Theorem main_without_client_id env fuel w cid w1 :
  resolve_client_id env w = (Ret cid, w1) ->
  truthy cid = false ->
  fst (main env fuel w) = Raise (SystemExit 1) /\
  exists tr, trace (snd (main env fuel w)) = trace w1 ++ tr /\
             forallb is_print tr = true.
Proof.
  intros E T. unfold main. rewrite (bind_Ret _ _ _ _ _ E). rewrite T. cbn [negb].
  split; [reflexivity|].
  exists [EvPrint MsgNoClientId; EvPrint (MsgClientIdHelp 1);
          EvPrint (MsgClientIdHelp 2); EvPrint (MsgClientIdHelp 3);
          EvPrint (MsgClientIdHelp 4); EvPrint (MsgClientIdHelp 5)].
  split; [|reflexivity]. simpl. rewrite <- !app_assoc. reflexivity.
Qed.

Lemma main_without_client_id_witness :
  fst (main quiet_env 3 world0) = Raise (SystemExit 1) /\
  exists tr, trace (snd (main quiet_env 3 world0)) =
             trace (snd (resolve_client_id quiet_env world0)) ++ tr /\
             forallb is_print tr = true.
Proof.
  apply (main_without_client_id quiet_env 3 world0 PNone); reflexivity.
Defined.

(** ** The connections of [main] *)

Lemma emitted_connects allowed w w' :
  (forall ev, allowed ev = true -> is_rpc_connect ev = false) ->
  emitted allowed w w' -> connects w' = connects w.
Proof. intros H E. unfold connects. eapply emitted_count; eauto. Qed.

Lemma file_event_not_connect ev : file_event ev = true -> is_rpc_connect ev = false.
Proof. destruct ev; simpl; auto; discriminate. Qed.

Lemma file_event_not_close ev : file_event ev = true -> is_close ev = false.
Proof. destruct ev; simpl; auto; discriminate. Qed.

Lemma update_event_not_connect ev : update_event ev = true -> is_rpc_connect ev = false.
Proof. destruct ev; simpl; auto; discriminate. Qed.

Lemma update_event_not_close ev : update_event ev = true -> is_close ev = false.
Proof. destruct ev; simpl; auto; discriminate. Qed.

Lemma loop_event_not_connect ev : loop_event ev = true -> is_rpc_connect ev = false.
Proof. destruct ev; simpl; auto; discriminate. Qed.

Lemma disconnect_event_not_connect ev :
  disconnect_event ev = true -> is_rpc_connect ev = false.
Proof. destruct ev; simpl; auto; discriminate. Qed.

Lemma config_file_event_file ev : config_file_event ev = true -> file_event ev = true.
Proof. destruct ev; simpl; auto. Qed.

Lemma connect_succeeds env st :
  discord_new env (steps (world st)) (client_id (self st)) = Returns tt ->
  discord_connect env (S (steps (world st))) = Returns tt ->
  exists st1,
    connect env st = (Ret true, st1) /\
    connects (world st1) = connects (world st) + 1 /\
    closes (world st1) = closes (world st).
Proof.
  intros Hn Hc. rewrite connect_cases. cbv zeta. rewrite Hn, Hc.
  eexists. split; [reflexivity|].
  unfold connects, closes. simpl. rewrite !count_events_app. simpl. lia.
Qed.

(** A run that connected on a dict config and ended has opened one
    connection and closed one. *)
Lemma run_continuous_counts env fuel duration st st1 d :
  connect env st = (Ret true, st1) ->
  connects (world st1) = connects (world st) + 1 ->
  config (self st) = PDict d ->
  post (run_continuous env fuel duration) st (fun r st' =>
    r <> OutOfFuel ->
    connects (world st') = connects (world st) + 1 /\
    closes (world st') = closes (world st) + 1).
Proof.
  intros Hc Hn Hd. unfold post.
  rewrite (run_continuous_connected env fuel duration st st1 d Hc Hd).
  destruct (connect_returns env st true st1 Hc) as (Hflag & Hrpc & _ & Hem).
  destruct (Hrpc eq_refl) as [h Hh].
  set (st2 := in_world st1 (after EvTime (world st1))).
  assert (H2 : connects (world st2) = connects (world st) + 1 /\
               closes (world st2) = closes (world st)).
  { rewrite <- Hn, <- (emitted_closes _ _ _ connect_event_not_close Hem).
    unfold connects, closes, st2. simpl. rewrite !count_events_app. simpl. lia. }
  destruct H2 as (N2 & C2).
  apply (post_try_finally _ _ st2 (fun r st' =>
           r <> OutOfFuel ->
           connects (world st') = connects (world st) + 1 /\
           closes (world st') = closes (world st) + 1)).
  eapply post_conseq.
  { apply (confined_guarded_body env any_exn); intros; apply passes_any. }
  intros r st3 (Hs & He & _).
  assert (N3 : connects (world st3) = connects (world st) + 1)
    by (rewrite (emitted_connects _ _ _ loop_event_not_connect He); exact N2).
  assert (C3 : closes (world st3) = closes (world st))
    by (rewrite (emitted_closes _ _ _ loop_event_not_close He); exact C2).
  destruct (disconnect_counts env st3 h) as (Dne & _ & _ & DC);
    try (rewrite Hs; assumption).
  destruct (disconnect_emits env st3) as [Dem _].
  pose proof (emitted_connects _ _ _ disconnect_event_not_connect Dem) as DN.
  destruct r as [u|e|]; [| |congruence]; unfold post;
    destruct (fst (disconnect env st3)); intros; split; congruence.
Qed.

Lemma init_calm_files env cid cfile w :
  calm env ->
  exists m w', __init__ env cid cfile w = (Ret m, w') /\
               is_dict (config m) = true /\
               emitted file_event w w'.
Proof.
  intros Hcalm. unfold __init__, bind, with_self.
  rewrite load_config_cases. cbv zeta. cbn [self world config_file].
  destruct (fs_exists env (steps w) cfile).
  - pose proof (calm_load _ Hcalm (S (steps w)) cfile) as Hl.
    destruct (fs_json_load env _ _) as [v|e].
    + eexists _, _. split; [reflexivity|]. split; [exact Hl|].
      exists [EvExists cfile; EvJsonLoad cfile]. simpl.
      rewrite <- app_assoc. split; reflexivity.
    + rewrite Hl. eexists _, _. split; [reflexivity|]. split; [reflexivity|].
      exists [EvExists cfile; EvJsonLoad cfile; EvPrint (MsgErrorLoadingConfig e)].
      simpl. rewrite <- !app_assoc. split; reflexivity.
  - eexists _, _. split; [reflexivity|]. split; [reflexivity|].
    exists [EvExists cfile]. split; reflexivity.
Qed.

Lemma confined_save_config_files env ok :
  (forall n p d, throws_within ok (fs_json_dump env n p d)) ->
  confined ok false file_event (save_config env).
Proof.
  intros Hd. unfold save_config.
  apply confined_bind; [apply confined_get|]. intros st.
  apply confined_try_except with (ok1 := fun e => is_Exception e || ok e).
  - apply confined_bind; [|intros _; apply confined_print; reflexivity].
    apply confined_external; [reflexivity|]. intros n.
    specialize (Hd n (config_file (self st)) (config (self st))).
    destruct (fs_json_dump env _ _ _); auto.
  - intros e He. unfold except_Exception.
    destruct (is_Exception e); simpl in He; auto.
    apply confined_print; reflexivity.
Qed.

(** X18 — [main] connects twice, once itself and once more inside
    [run_continuous], and disconnects once.  In an environment where
    Discord accepts every connection and nothing fails except by
    [Exception] or Ctrl-C during a wait, every run of [main] that found
    a client id and ended has called [rpc.connect()] twice and
    [rpc.close()] once: the first connection is never closed. *)
Theorem main_opens_two_connections env fuel w cid w1 :
  calm env ->
  (forall n c, discord_new env n c = Returns tt) ->
  (forall n, discord_connect env n = Returns tt) ->
  resolve_client_id env w = (Ret cid, w1) ->
  truthy cid = true ->
  fst (main env fuel w) <> OutOfFuel ->
  connects (snd (main env fuel w)) = connects w + 2 /\
  closes (snd (main env fuel w)) = closes w + 1.
Proof.
  intros Hcalm Hnew Hconn E T.
  change (post (main env fuel) w (fun r w' =>
            r <> OutOfFuel ->
            connects w' = connects w + 2 /\ closes w' = closes w + 1)).
  pose proof (resolve_client_id_emits env w) as Hres. unfold post in Hres.
  rewrite E in Hres. cbn [fst snd] in Hres. destruct Hres as [Hem1 _].
  apply (emitted_weaken _ file_event _ _ config_file_event_file) in Hem1.
  unfold main. apply post_bind. unfold post at 1. rewrite E. cbn [fst snd].
  rewrite T. cbn [negb].
  apply post_bind.
  destruct (init_calm_files env cid "discord_config.json" w1 Hcalm)
    as (m & w2 & Ei & Hdict & Hem2).
  unfold post at 1. rewrite Ei. cbn [fst snd].
  apply post_bind, post_with_self, post_bind, post_get.
  apply post_bind, post_lift, post_external. intros w3 _ Ht3. cbv beta iota.
  cbn [self config_file].
  assert (Hem3 : emitted file_event w w3).
  { eapply emitted_trans; [exact Hem1|]. eapply emitted_trans; [exact Hem2|].
    eapply emitted_one; [|exact Ht3]. reflexivity. }
  apply post_bind.
  eapply post_conseq.
  { apply (confined_weaken no_exn no_exn false false file_event file_event
             (if negb (fs_exists env (steps w2) (config_file m))
              then save_config env else ret tt)); auto.
    destruct (negb _); [|apply confined_ret].
    apply confined_save_config_files. intros n p d.
    apply tame_throws_within, (calm_dump _ Hcalm). }
  intros r st4 (Hs4 & Hem4 & Hr4). cbn [self world] in Hs4, Hem4.
  destruct r as [u|e|]; [|discriminate Hr4|discriminate Hr4].
  assert (Hem04 : emitted file_event w (world st4))
    by (eapply emitted_trans; eauto).
  pose proof (emitted_connects _ _ _ file_event_not_connect Hem04) as N4.
  pose proof (emitted_closes _ _ _ file_event_not_close Hem04) as C4.
  apply post_bind.
  destruct (connect_succeeds env st4 (Hnew _ _) (Hconn _)) as (st5 & Hc5 & N5 & C5).
  destruct (connect_returns env st4 true st5 Hc5) as (_ & _ & Hcfg5 & _).
  unfold post at 1. rewrite Hc5. cbn [fst snd].
  apply post_bind.
  eapply post_conseq.
  { apply (confined_update_status env no_exn main_kwargs). intros n d.
    apply tame_throws_within, (calm_update _ Hcalm). }
  intros r st6 (Hs6 & Hem6 & Hr6).
  destruct r as [u'|e|]; [|discriminate Hr6|discriminate Hr6].
  pose proof (emitted_connects _ _ _ update_event_not_connect Hem6) as N6.
  pose proof (emitted_closes _ _ _ update_event_not_close Hem6) as C6.
  assert (Hd6 : is_dict (config (self st6)) = true).
  { rewrite Hs6, Hcfg5, Hs4. exact Hdict. }
  destruct (config (self st6)) as [| | | | | | |d] eqn:Hcfg6; try discriminate.
  destruct (connect_succeeds env st6 (Hnew _ _) (Hconn _)) as (st7 & Hc7 & N7 & _).
  pose proof (run_continuous_counts env fuel None st6 st7 d Hc7 N7 Hcfg6) as Hrun.
  assert (Hd6' : is_dict (config (self st6)) = true) by (rewrite Hcfg6; reflexivity).
  pose proof (run_continuous_calm env fuel None st6 Hcalm Hd6') as Hshape.
  unfold post in Hrun |- *.
  destruct (fst (run_continuous env fuel None st6)) as [[]|e|];
    simpl in Hshape; [|discriminate|intros Hne; contradiction].
  intros _. destruct Hrun as [N8 C8]; [discriminate|].
  unfold ret. cbn [snd]. split; lia.
Qed.

Lemma main_opens_two_connections_witness :
  connects (snd (main id_ctrl_c_env 3 world0)) = connects world0 + 2 /\
  closes (snd (main id_ctrl_c_env 3 world0)) = closes world0 + 1.
Proof.
  apply (main_opens_two_connections id_ctrl_c_env 3 world0 (PStr "1234567890") world0);
    [constructor; intros; simpl; auto | reflexivity | reflexivity | reflexivity
    | reflexivity | vm_compute; discriminate].
Defined.

(** ** The config during a run *)

Lemma connect_frame env st :
  config (self (snd (connect env st))) = config (self st) /\
  emitted connect_event (world st) (world (snd (connect env st))) /\
  fst (connect env st) <> OutOfFuel.
Proof.
  rewrite connect_cases. cbv zeta.
  destruct (discord_new env _ _) as [[]|e];
    [destruct (discord_connect env _) as [[]|e]|];
    try destruct (is_Exception e);
    cbn [fst snd self world config];
    (split; [reflexivity|]); (split; [|discriminate]);
    unfold log, after; cbn [trace steps];
    eexists; (split; [rewrite <- ?app_assoc; reflexivity | reflexivity]).
Qed.

Lemma disconnect_keeps_config env st :
  config (self (snd (disconnect env st))) = config (self st).
Proof.
  rewrite disconnect_cases. cbv zeta.
  destruct (rpc (self st)); [destruct (is_connected (self st))|];
    try reflexivity.
  destruct (discord_close env _) as [[]|e]; [|destruct (is_Exception e)];
    reflexivity.
Qed.

Lemma connect_event_no_file ev : connect_event ev = true -> no_file_event ev = true.
Proof. destruct ev; simpl; auto. Qed.

Lemma loop_event_no_file ev : loop_event ev = true -> no_file_event ev = true.
Proof. destruct ev; simpl; auto. Qed.

Lemma disconnect_event_no_file ev : disconnect_event ev = true -> no_file_event ev = true.
Proof. destruct ev; simpl; auto. Qed.

Lemma run_continuous_no_file env fuel duration st :
  post (run_continuous env fuel duration) st (fun _ st' =>
    config (self st') = config (self st) /\
    emitted no_file_event (world st) (world st')).
Proof.
  unfold run_continuous. apply post_bind.
  destruct (connect_frame env st) as (Hcfg1 & Hem1 & Hne1).
  apply (emitted_weaken _ no_file_event _ _ connect_event_no_file) in Hem1.
  unfold post at 1.
  destruct (connect env st) as [r st1]. cbn [fst snd] in *.
  destruct r as [b|e|]; [|split; assumption|contradiction].
  destruct b; cbn [negb]; [|apply post_ret; split; assumption].
  apply post_bind, post_lift, post_external. intros w2 _ Ht2. cbv beta iota.
  set (st2 := {| self := self st1; world := w2 |}).
  assert (Hem2 : emitted no_file_event (world st) (world st2)).
  { eapply emitted_trans; [exact Hem1|]. eapply emitted_one; [|exact Ht2]. reflexivity. }
  apply post_bind.
  eapply post_conseq;
    [apply (confined_config_get any_exn false no_file_event); reflexivity|].
  intros r st3 (Hs3 & Hem3 & _).
  assert (Hcfg3 : config (self st3) = config (self st))
    by (rewrite Hs3; exact Hcfg1).
  assert (Hem03 : emitted no_file_event (world st) (world st3))
    by (eapply emitted_trans; eauto).
  destruct r as [update_interval|e|]; try (split; assumption).
  apply post_try_finally.
  eapply post_conseq.
  { apply (confined_guarded_body env any_exn); intros; apply passes_any. }
  intros r st4 (Hs4 & Hem4 & _).
  apply (emitted_weaken _ no_file_event _ _ loop_event_no_file) in Hem4.
  assert (Hem04 : emitted no_file_event (world st) (world st4))
    by (eapply emitted_trans; eauto).
  assert (Hfin : config (self (snd (disconnect env st4))) = config (self st) /\
                 emitted no_file_event (world st) (world (snd (disconnect env st4)))).
  { split; [rewrite disconnect_keeps_config, Hs4; exact Hcfg3|].
    destruct (disconnect_emits env st4) as [Hd _].
    eapply emitted_trans; [exact Hem04|].
    eapply emitted_weaken; [apply disconnect_event_no_file | exact Hd]. }
  destruct r as [u|e|]; [| |split; [congruence | exact Hem04]];
    unfold post; destruct (fst (disconnect env st4)); exact Hfin.
Qed.

(** X19 — A run never goes back to the config file: whatever happens,
    [run_continuous] makes no call to the file system and leaves
    [self.config] as it found it, so a change made to
    [discord_config.json] while the run is going is not picked up. *)
Theorem run_continuous_never_reloads_config env fuel duration st :
  let out := run_continuous env fuel duration st in
  config (self (snd out)) = config (self st) /\
  exists tr,
    trace (world (snd out)) = trace (world st) ++ tr /\
    forall ev, In ev tr ->
      match ev with
      | EvExists _ | EvJsonLoad _ | EvJsonDump _ _ => False
      | _ => True
      end.
Proof.
  cbv zeta.
  destruct (run_continuous_no_file env fuel duration st) as (Hcfg & tr & E & F).
  split; [exact Hcfg|]. exists tr. split; [exact E|].
  intros ev Hin. rewrite forallb_forall in F. specialize (F ev Hin).
  destruct ev; simpl in F; auto; discriminate.
Qed.

(** ** The first run *)

Lemma emitted_any allowed w w' : emitted allowed w w' -> emitted any_event w w'.
Proof. apply emitted_weaken. reflexivity. Qed.


(** What [main] does once the config is on disk only adds to the
    trace. *)
Lemma main_tail_emits env fuel st :
  post (connected <- connect env;;
        if connected : bool
        then update_status env main_kwargs;; run_continuous env fuel None
        else ret tt) st
    (fun _ st' => emitted any_event (world st) (world st')).
Proof.
  apply post_bind.
  destruct (connect_frame env st) as (_ & Hem1 & Hne1).
  apply emitted_any in Hem1. unfold post at 1.
  destruct (connect env st) as [r st1]. cbn [fst snd] in *.
  destruct r as [b|e|]; [|exact Hem1|contradiction].
  destruct b; [|apply post_ret; exact Hem1].
  apply post_bind.
  eapply post_conseq.
  { apply (confined_update_status env any_exn main_kwargs).
    intros; apply throws_within_any. }
  intros r st2 (_ & Hem2 & _). apply emitted_any in Hem2.
  assert (Hem02 : emitted any_event (world st) (world st2))
    by (eapply emitted_trans; eauto).
  destruct r as [u|e|]; try exact Hem02.
  eapply post_conseq; [apply run_continuous_no_file|].
  intros r st3 (_ & Hem3). apply emitted_any in Hem3.
  eapply emitted_trans; eauto.
Qed.

(** X20 — On a first run, with the client id in the environment and no
    [discord_config.json] on disk, [main] writes the default
    configuration to [discord_config.json] before anything else: the
    two existence checks and the write come first, and only then does
    it turn to Discord. *)
Theorem main_first_run_writes_defaults env fuel w s :
  environ env "DISCORD_CLIENT_ID" = Some s ->
  s <> "" ->
  fs_exists env (steps w) "discord_config.json" = false ->
  fs_exists env (S (steps w)) "discord_config.json" = false ->
  exists tail,
    trace (snd (main env fuel w)) =
      trace w ++
      EvExists "discord_config.json" ::
      EvExists "discord_config.json" ::
      EvJsonDump "discord_config.json" (PDict default_config) :: tail.
Proof.
  intros He Hs Hex1 Hex2.
  change (post (main env fuel) w (fun _ w' =>
            exists tail,
              trace w' =
                trace w ++
                EvExists "discord_config.json" ::
                EvExists "discord_config.json" ::
                EvJsonDump "discord_config.json" (PDict default_config) :: tail)).
  assert (Eres : resolve_client_id env w = (Ret (PStr s), w)).
  { unfold resolve_client_id. rewrite He. cbn [truthy].
    destruct (String.eqb_spec s ""); [contradiction | reflexivity]. }
  assert (T : negb (truthy (PStr s)) = false).
  { cbn [truthy]. destruct (String.eqb_spec s ""); [contradiction | reflexivity]. }
  set (m0 := {| client_id := PStr s; config_file := "discord_config.json";
                rpc := None; is_connected := false;
                config := PDict default_config |}).
  assert (Ei : __init__ env (PStr s) "discord_config.json" w =
               (Ret m0, after (EvExists "discord_config.json") w)).
  { unfold __init__, bind, with_self. rewrite load_config_cases. cbv zeta.
    cbn [self world config_file]. rewrite Hex1. reflexivity. }
  unfold main. apply post_bind. unfold post at 1. rewrite Eres. cbn [fst snd].
  rewrite T. apply post_bind. unfold post at 1. rewrite Ei. cbn [fst snd].
  apply post_bind, post_with_self, post_bind, post_get.
  apply post_bind, post_lift, post_external. intros w3 Hs3 Ht3.
  cbn [self world m0 config_file after steps trace] in Hs3, Ht3 |- *.
  rewrite Hex2. cbn [negb].
  set (st3 := {| self := m0; world := w3 |}).
  apply post_bind.
  destruct (save_config_frame env st3) as (Hs4 & (tail4 & Ht4 & _) & Hne4).
  cbv zeta in Hs4, Ht4, Hne4. unfold post at 1.
  destruct (save_config env st3) as [r st4]. cbn [fst snd] in *.
  assert (Hpre : trace (world st4) =
                 trace w ++
                 EvExists "discord_config.json" ::
                 EvExists "discord_config.json" ::
                 EvJsonDump "discord_config.json" (PDict default_config) :: tail4).
  { rewrite Ht4. cbn [st3 world self m0 config_file config]. rewrite Ht3.
    rewrite <- !app_assoc. reflexivity. }
  assert (Hgrow : forall w', emitted any_event (world st4) w' ->
            exists tail,
              trace w' =
                trace w ++
                EvExists "discord_config.json" ::
                EvExists "discord_config.json" ::
                EvJsonDump "discord_config.json" (PDict default_config) :: tail).
  { intros w' (tr & E & _). exists (tail4 ++ tr). rewrite E, Hpre.
    rewrite <- !app_assoc. reflexivity. }
  destruct r as [u|e|]; [|exists tail4; exact Hpre|contradiction].
  pose proof (main_tail_emits env fuel st4) as Htail. unfold post in Htail |- *.
  apply Hgrow in Htail.
  match goal with |- match ?x with _ => _ end => destruct x end;
    exact Htail.
Qed.

Lemma main_first_run_writes_defaults_witness :
  exists tail,
    trace (snd (main id_ctrl_c_env 3 world0)) =
      trace world0 ++
      EvExists "discord_config.json" ::
      EvExists "discord_config.json" ::
      EvJsonDump "discord_config.json" (PDict default_config) :: tail.
Proof.
  apply (main_first_run_writes_defaults id_ctrl_c_env 3 world0 "1234567890");
    [reflexivity | discriminate | reflexivity | reflexivity].
Defined.

(** * Properties of [setup.py] *)

Module SetupProps.

Import Setup.

Lemma count_setup_events_app p tr1 tr2 :
  count_events p (tr1 ++ tr2) = count_events p tr1 + count_events p tr2.
Proof.
  induction tr1 as [|ev tr1 IH]; simpl; [reflexivity|].
  rewrite IH. lia.
Qed.





Lemma check_files_stable env (present : string -> bool) files :
  (forall n p, fs_exists env n p = present p) ->
  forall all_exist w,
    fst (check_files env files all_exist w) = Ret (all_exist && forallb present files) /\
    steps (snd (check_files env files all_exist w)) = steps w + 2 * length files /\
    count_events is_write (trace (snd (check_files env files all_exist w))) =
      count_events is_write (trace w).
Proof.
  intros Hst. induction files as [|file rest IH]; intros all_exist w.
  - cbn [check_files ret fst snd forallb length]. rewrite andb_true_r.
    repeat split; lia.
  - cbn [check_files]. unfold bind, path_exists, external, print.
    cbn [steps trace]. rewrite !Hst.
    set (w1 := {| steps := S (S (steps w)); trace := _ |}).
    destruct (IH (if negb (present file) then false else all_exist) w1)
      as (R & S1 & C1).
    destruct (check_files env rest _ w1) as [r w2]. cbn [fst snd] in *.
    subst r. split.
    + f_equal. cbn [forallb]. destruct (present file), all_exist; reflexivity.
    + rewrite S1, C1. unfold w1. cbn [steps trace length].
      rewrite !count_setup_events_app. simpl. split; lia.
Qed.

(** X22 — On a file system that does not change during the check,
    [verify_installation] returns [True] exactly when the five required
    files all exist; it looks each of them up twice, writes nothing and
    asks nothing. *)
Theorem verify_installation_result env (present : string -> bool) w :
  (forall n p, fs_exists env n p = present p) ->
  let out := verify_installation env w in
  fst out = Ret (forallb present required_files) /\
  steps (snd out) = steps w + 10 /\
  count_events is_write (trace (snd out)) = count_events is_write (trace w) /\
  count_events is_input (trace (snd out)) = count_events is_input (trace w) /\
  (fst out = Ret true <-> forall file, In file required_files -> present file = true).
Proof.
  intros Hst. cbv zeta.
  set (w1 := snd (print_header "Verifying Installation" w)).
  assert (E : verify_installation env w =
              (all_exist <- check_files env required_files true;;
               (if all_exist : bool then print MsgAllFound else print MsgSomeMissing);;
               ret all_exist) w1) by reflexivity.
  rewrite E. clear E.
  assert (Hin : forall files all_exist w0,
            count_events is_input (trace (snd (check_files env files all_exist w0))) =
            count_events is_input (trace w0)).
  { induction files as [|file rest IH]; intros all_exist w0; [reflexivity|].
    cbn [check_files]. unfold bind, path_exists, external, print. cbn [steps trace].
    rewrite IH. cbn [trace]. rewrite !count_setup_events_app. simpl. lia. }
  destruct (check_files_stable env present required_files Hst true w1) as (R & S1 & C1).
  specialize (Hin required_files true w1).
  assert (S0 : steps w1 = steps w) by reflexivity.
  assert (C0 : count_events is_write (trace w1) = count_events is_write (trace w)).
  { unfold w1. simpl. rewrite !count_setup_events_app. simpl. lia. }
  assert (I0 : count_events is_input (trace w1) = count_events is_input (trace w)).
  { unfold w1. simpl. rewrite !count_setup_events_app. simpl. lia. }
  rewrite S0 in S1. rewrite C0 in C1. rewrite I0 in Hin. clearbody w1.
  unfold bind.
  destruct (check_files env required_files true w1) as [r w2]. cbn [fst snd] in *.
  subst r. cbn [andb].
  assert (Hiff : forallb present required_files = true <->
                 forall file, In file required_files -> present file = true)
    by apply forallb_forall.
  destruct (forallb present required_files);
    cbn [print ret fst snd steps trace];
    rewrite count_setup_events_app, count_setup_events_app, C1, Hin, S1;
    (split; [reflexivity|]); (split; [simpl; lia|]);
    (split; [simpl; lia|]); (split; [simpl; lia|]);
    rewrite <- Hiff;
    (split; intros H; congruence).
Qed.

Lemma verify_installation_result_witness :
  let out := verify_installation bare_env world0 in
  fst out = Ret (forallb (fun _ => false) required_files) /\
  steps (snd out) = steps world0 + 10 /\
  count_events is_write (trace (snd out)) = count_events is_write (trace world0) /\
  count_events is_input (trace (snd out)) = count_events is_input (trace world0) /\
  (fst out = Ret true <->
   forall file, In file required_files -> (fun _ : string => false) file = true).
Proof.
  apply (verify_installation_result bare_env (fun _ => false) world0).
  reflexivity.
Defined.

Section ClientId.

Variable env : Env.
Variable str_strip : string -> string.
Variable str_isdigit : string -> bool.
Variable str_len : string -> nat.

Local Abbreviation loop := (get_client_id_loop env str_strip str_isdigit str_len).
Local Abbreviation ok := (acceptable str_isdigit str_len).

Lemma acceptable_branches client_id :
  ok client_id =
    if String.eqb client_id "" then false
    else if negb (str_isdigit client_id) || Nat.ltb (str_len client_id) 15
         then false else true.
Proof.
  unfold acceptable. destruct (String.eqb client_id ""); [reflexivity|].
  destruct (negb (str_isdigit client_id) || _); reflexivity.
Qed.

(** One turn of the loop on a line that came in. *)
Lemma loop_step fuel w line :
  stdin env (steps w) = Returns line ->
  let prompt := String.append newline "Enter your Discord Client ID: " in
  let w1 := {| steps := S (steps w); trace := trace w ++ [EvInput prompt] |} in
  loop (S fuel) w =
    if ok (str_strip line)
    then (Ret (str_strip line),
          {| steps := S (steps w);
             trace := trace w1 ++ [EvPrint (MsgAcceptedId (str_strip line))] |})
    else loop fuel
           {| steps := S (steps w);
              trace := trace w1 ++
                       [EvPrint (if String.eqb (str_strip line) ""
                                 then MsgEmptyId else MsgInvalidId)] |}.
Proof.
  intros Hin. cbv zeta. rewrite acceptable_branches.
  cbn [get_client_id_loop].
  unfold bind at 1, input, external. rewrite Hin.
  destruct (String.eqb (str_strip line) ""); [reflexivity|].
  destruct (negb (str_isdigit (str_strip line)) || _); reflexivity.
Qed.

Lemma loop_returns_acceptable fuel :
  forall w s w',
    loop fuel w = (Ret s, w') ->
    ok s = true /\
    exists n line, stdin env n = Returns line /\ s = str_strip line.
Proof.
  induction fuel as [|fuel IH]; intros w s w' H; [discriminate H|].
  destruct (stdin env (steps w)) as [line|e] eqn:Hin.
  - rewrite (loop_step fuel w line Hin) in H. cbv zeta in H.
    destruct (ok (str_strip line)) eqn:Hok.
    + injection H as <- _. split; [exact Hok|]. eauto.
    + apply IH in H. exact H.
  - cbn [get_client_id_loop] in H.
    unfold bind at 1, input, external in H. rewrite Hin in H. discriminate H.
Qed.

(** X23 — [get_client_id] only ever returns a line of input, stripped,
    that passed both of its tests: it is not empty, [isdigit()] holds
    of it and it is at least 15 long. *)
Theorem get_client_id_returns_acceptable fuel w s w' :
  get_client_id env str_strip str_isdigit str_len fuel w = (Ret s, w') ->
  s <> "" /\
  str_isdigit s = true /\
  15 <= str_len s /\
  exists n line, stdin env n = Returns line /\ s = str_strip line.
Proof.
  intros H.
  change (loop fuel (snd ((print_header "Discord Client ID Setup";;
                           print (MsgHowTo 0);; print (MsgHowTo 1);;
                           print (MsgHowTo 2);; print (MsgHowTo 3);;
                           print (MsgHowTo 4);; print MsgRule) w)) = (Ret s, w')) in H.
  apply loop_returns_acceptable in H. destruct H as (Hok & Hline).
  rewrite acceptable_branches in Hok.
  destruct (String.eqb_spec s ""); [discriminate Hok|].
  destruct (str_isdigit s); [|discriminate Hok]. cbn [negb orb] in Hok.
  destruct (Nat.ltb_spec (str_len s) 15); [discriminate Hok|].
  auto.
Qed.

Lemma loop_first_acceptable k :
  forall fuel w line,
    k < fuel ->
    (forall i, i < k ->
       exists l, stdin env (steps w + i) = Returns l /\ ok (str_strip l) = false) ->
    stdin env (steps w + k) = Returns line ->
    ok (str_strip line) = true ->
    fst (loop fuel w) = Ret (str_strip line) /\
    steps (snd (loop fuel w)) = steps w + S k /\
    count_events is_input (trace (snd (loop fuel w))) =
      count_events is_input (trace w) + S k /\
    count_events is_rejection (trace (snd (loop fuel w))) =
      count_events is_rejection (trace w) + k.
Proof.
  induction k as [|k IH]; intros fuel w line Hfuel Hbad Hin Hok;
    (destruct fuel as [|fuel]; [lia|]).
  - rewrite Nat.add_0_r in Hin.
    rewrite (loop_step fuel w line Hin). cbv zeta. rewrite Hok.
    cbn [fst snd steps trace]. rewrite !count_setup_events_app. simpl.
    repeat split; lia.
  - destruct (Hbad 0) as (l0 & Hin0 & Hok0); [lia|].
    rewrite Nat.add_0_r in Hin0.
    rewrite (loop_step fuel w l0 Hin0). cbv zeta. rewrite Hok0.
    set (w1 := {| steps := S (steps w); trace := _ |}).
    destruct (IH fuel w1 line) as (R & S1 & C1 & J1); try lia; try assumption.
    + intros i Hi. destruct (Hbad (S i)) as (l & Hl & Hokl); [lia|].
      exists l. split; [|exact Hokl].
      cbn [w1 steps]. rewrite <- Hl. f_equal. lia.
    + cbn [w1 steps]. rewrite <- Hin. f_equal. lia.
    + rewrite R, S1, C1, J1. cbn [w1 steps trace].
      rewrite !count_setup_events_app. simpl.
      destruct (String.eqb (str_strip l0) ""); simpl; repeat split; lia.
Qed.

(** X24 — [get_client_id] returns the first line it is given that
    passes its tests: if the first [k] lines are turned down and the
    next one passes, it returns that line, stripped, having asked
    [k + 1] times and printed [k] refusals. *)
Theorem get_client_id_first_acceptable fuel w k line :
  k < fuel ->
  (forall i, i < k ->
     exists l, stdin env (steps w + i) = Returns l /\
               acceptable str_isdigit str_len (str_strip l) = false) ->
  stdin env (steps w + k) = Returns line ->
  acceptable str_isdigit str_len (str_strip line) = true ->
  let out := get_client_id env str_strip str_isdigit str_len fuel w in
  fst out = Ret (str_strip line) /\
  steps (snd out) = steps w + S k /\
  count_events is_input (trace (snd out)) = count_events is_input (trace w) + S k /\
  count_events is_rejection (trace (snd out)) =
    count_events is_rejection (trace w) + k.
Proof.
  intros Hfuel Hbad Hin Hok. cbv zeta.
  set (w0 := snd ((print_header "Discord Client ID Setup";;
                   print (MsgHowTo 0);; print (MsgHowTo 1);;
                   print (MsgHowTo 2);; print (MsgHowTo 3);;
                   print (MsgHowTo 4);; print MsgRule) w)).
  change (get_client_id env str_strip str_isdigit str_len fuel w)
    with (loop fuel w0).
  assert (S0 : steps w0 = steps w) by reflexivity.
  assert (C0 : count_events is_input (trace w0) = count_events is_input (trace w)).
  { unfold w0. simpl. rewrite !count_setup_events_app. simpl. lia. }
  assert (J0 : count_events is_rejection (trace w0) =
               count_events is_rejection (trace w)).
  { unfold w0. simpl. rewrite !count_setup_events_app. simpl. lia. }
  rewrite <- S0, <- C0, <- J0.
  apply (loop_first_acceptable k fuel w0 line Hfuel); rewrite ?S0; assumption.
Qed.

End ClientId.

Lemma get_client_id_returns_acceptable_witness :
  "123456789012345678" <> "" /\
  ascii_isdigit "123456789012345678" = true /\
  15 <= String.length "123456789012345678" /\
  exists n line, stdin typing_env n = Returns line /\
                 "123456789012345678" = ascii_strip line.
Proof.
  apply (get_client_id_returns_acceptable typing_env ascii_strip ascii_isdigit
           String.length 5 world0 "123456789012345678"
           (snd (get_client_id typing_env ascii_strip ascii_isdigit
                   String.length 5 world0))).
  vm_compute. reflexivity.
Defined.

Lemma get_client_id_first_acceptable_witness :
  let out := get_client_id typing_env ascii_strip ascii_isdigit String.length 5 world0 in
  fst out = Ret (ascii_strip "123456789012345678") /\
  steps (snd out) = steps world0 + 3 /\
  count_events is_input (trace (snd out)) = count_events is_input (trace world0) + 3 /\
  count_events is_rejection (trace (snd out)) =
    count_events is_rejection (trace world0) + 2.
Proof.
  apply (get_client_id_first_acceptable typing_env ascii_strip ascii_isdigit
           String.length 5 world0 2 "123456789012345678"); [lia | | reflexivity | reflexivity].
  intros i Hi. destruct i as [|[|i]]; [| |lia]; eexists; split; reflexivity.
Defined.

End SetupProps.
